(** * The shopping bag screen (Bag.js): cart arithmetic and PayPal checkout

    A shallow embedding of [BagScreen]: the cart held in React state, the two
    quantity handlers, the derived order summary and the checkout handler
    [handlePayPalPayment] with the dialogs and the payment promise it sets up.

    JavaScript numbers are IEEE-754 binary64 values.  They are modelled by
    [spec_float] with the operations of the standard library's [SpecFloat]
    at precision 53 and maximal exponent 1024, rounding to nearest, ties to
    even: the arithmetic the engine performs, bit for bit. *)

From Stdlib Require Import ZArith List String Ascii Bool Lia.
From Stdlib Require Import SpecFloat DecimalString.
From Stdlib Require DecimalFacts DecimalPos DecimalN.
Import ListNotations.

Local Open Scope Z_scope.

(** ** JavaScript numbers *)

Module JS.

Definition number : Type := spec_float.

Definition prec : Z := 53.
Definition emax : Z := 1024.

(** [x + y], [x - y], [x * y], [x / y] on numbers. *)
Definition add : number -> number -> number := SFadd prec emax.
Definition sub : number -> number -> number := SFsub prec emax.
Definition mul : number -> number -> number := SFmul prec emax.
Definition div : number -> number -> number := SFdiv prec emax.

(** [x > y] and [x === y] on numbers: false as soon as one side is NaN,
    and [+0 === -0]. *)
Definition gt (x y : number) : bool := SFltb y x.
Definition strict_eq (x y : number) : bool := SFeqb x y.

(** The number denoted by an integer literal: [n] rounded to binary64
    (exact up to 2^53). *)
Definition of_Z (n : Z) : number := binary_normalize prec emax n 0 false.

(** The number denoted by a decimal literal [digits / 10^scale], such as
    [45.99 = decimal 4599 2]: the binary64 value nearest to the quotient. *)
Definition decimal (digits : positive) (scale : nat) : number :=
  SFdiv prec emax (S754_finite false digits 0)
                  (S754_finite false (Pos.pow 10 (Pos.of_nat scale)) 0).

(** A number as it is stored: the canonical representation of a binary64. *)
Definition valid (x : number) : bool := valid_binary prec emax x.

(** Structural equality of stored numbers (same bits, NaN payload apart). *)
Definition same (x y : number) : bool :=
  match x, y with
  | S754_zero s, S754_zero s' => Bool.eqb s s'
  | S754_infinity s, S754_infinity s' => Bool.eqb s s'
  | S754_nan, S754_nan => true
  | S754_finite s m e, S754_finite s' m' e' =>
      Bool.eqb s s' && Pos.eqb m m' && Z.eqb e e'
  | _, _ => false
  end.

Local Open Scope string_scope.
Local Open Scope Z_scope.

(** Decimal digits of a non-negative integer. *)
Definition digits_of (n : Z) : string :=
  NilZero.string_of_uint (N.to_uint (Z.to_N n)).

Fixpoint zeros (k : nat) : string :=
  match k with
  | O => EmptyString
  | S k' => String "0"%char (zeros k')
  end.

Fixpoint take (k : nat) (s : string) : string :=
  match k, s with
  | S k', String c s' => String c (take k' s')
  | _, _ => EmptyString
  end.

Fixpoint drop (k : nat) (s : string) : string :=
  match k, s with
  | S k', String _ s' => drop k' s'
  | _, _ => s
  end.

(** The nearest binary64 to [s * 10^p], for [s > 0]. *)
Definition nearest (s : positive) (p : Z) : number :=
  match p with
  | Zneg q => SFdiv prec emax (S754_finite false s 0)
                              (S754_finite false (Pos.pow 10 q) 0)
  | _ => binary_normalize prec emax (Zpos s * 10 ^ p) 0 false
  end.

(** For a positive finite [m * 2^e]: numerator and denominator. *)
Definition num_of (m : positive) (e : Z) : Z :=
  match e with Zpos _ => Zpos m * 2 ^ e | _ => Zpos m end.
Definition den_of (e : Z) : Z :=
  match e with Zneg _ => 2 ^ (- e) | _ => 1 end.

(** [floor (a/b * 10^p)]. *)
Definition scale10 (a b p : Z) : Z :=
  match p with
  | Zneg _ => a / (b * 10 ^ (- p))
  | _ => (a * 10 ^ p) / b
  end.

(** The least [n] with [a/b < 10^n], searched upwards from [n]. *)
Fixpoint magnitude (fuel : nat) (a b n : Z) : Z :=
  match fuel with
  | O => n
  | S fuel' =>
      if (match n with
          | Zneg _ => a * 10 ^ (- n) <? b
          | _ => a <? b * 10 ^ n
          end)
      then n else magnitude fuel' a b (n + 1)
  end.

(** |s * 10^p - a/b| as a numerator over the common denominator
    [b * 10^(max 0 (-p))]. *)
Definition distance (a b s p : Z) : Z :=
  match p with
  | Zneg _ => Z.abs (s * b - a * 10 ^ (- p))
  | _ => Z.abs (s * 10 ^ p * b - a)
  end.

(** Candidates [(n, s)] with exactly [k] digits whose value reads back as
    [x = a/b]; [n] ranges over the magnitude [n0] and [n0 + 1], [s] over
    the two integers around [x * 10^(k-n)]. *)
Definition candidates (x : number) (a b n0 : Z) (k : Z) : list (Z * Z) :=
  flat_map (fun n =>
    let lo := scale10 a b (k - n) in
    filter (fun ns : Z * Z =>
              let s := snd ns in
              (10 ^ (k - 1) <=? s) && (s <? 10 ^ k)
              && same (nearest (Z.to_pos s) (n - k)) x)
           [(n, lo); (n, lo + 1)])
    [n0; n0 + 1].

(** Among candidates of the same length, the one closest to [x]; on a tie
    the even [s]. *)
Definition closer (a b k : Z) (c1 c2 : Z * Z) : Z * Z :=
  let d1 := distance a b (snd c1) (fst c1 - k) in
  let d2 := distance a b (snd c2) (fst c2 - k) in
  (* the two distances are over denominators 10^(k - n); bring them to the
     same one before comparing *)
  let w1 := d1 * 10 ^ (Z.max 0 (k - fst c2)) in
  let w2 := d2 * 10 ^ (Z.max 0 (k - fst c1)) in
  if w1 <? w2 then c1
  else if w2 <? w1 then c2
  else if Z.even (snd c1) then c1 else c2.

Definition best (a b k : Z) (cs : list (Z * Z)) : option (Z * Z) :=
  match cs with
  | [] => None
  | c :: cs' => Some (fold_left (closer a b k) cs' c)
  end.

(** The shortest digit string: the first length [k = 1, 2, ...] that has a
    candidate.  Seventeen digits always suffice for a binary64. *)
Fixpoint shortest (fuel : nat) (x : number) (a b n0 k : Z) : Z * Z * Z :=
  match fuel with
  | O => (n0, k, scale10 a b (k - n0))
  | S fuel' =>
      match best a b k (candidates x a b n0 k) with
      | Some (n, s) => (n, k, s)
      | None => shortest fuel' x a b n0 (k + 1)
      end
  end.

(** Number::toString(x) in radix 10 for a positive finite [m * 2^e]. *)
Definition positive_to_string (m : positive) (e : Z) : string :=
  let a := num_of m e in
  let b := den_of e in
  let n0 := magnitude 700 a b (-330) in
  let '(n, k, s) := shortest 17 (S754_finite false m e) a b n0 1 in
  let ds := digits_of s in
  if (k <=? n) && (n <=? 21) then
    ds ++ zeros (Z.to_nat (n - k))
  else if (0 <? n) && (n <=? 21) then
    take (Z.to_nat n) ds ++ "." ++ drop (Z.to_nat n) ds
  else if (-6 <? n) && (n <=? 0) then
    "0." ++ zeros (Z.to_nat (- n)) ++ ds
  else
    let ex := (if 0 <=? n - 1 then "+" else "-") ++ digits_of (Z.abs (n - 1)) in
    if k =? 1 then ds ++ "e" ++ ex
    else take 1 ds ++ "." ++ drop 1 ds ++ "e" ++ ex.

(** [String(x)], the conversion a template literal applies to a number. *)
Definition toString (x : number) : string :=
  match x with
  | S754_nan => "NaN"
  | S754_zero _ => "0"
  | S754_infinity false => "Infinity"
  | S754_infinity true => "-Infinity"
  | S754_finite false m e => positive_to_string m e
  | S754_finite true m e => "-" ++ positive_to_string m e
  end.

(** The digits of [n] with a point before the last [f] of them, padded with
    leading zeros to at least [f + 1] digits. *)
Definition point (f : nat) (n : Z) : string :=
  let m := digits_of n in
  match f with
  | O => m
  | _ =>
      let m' := zeros (S f - String.length m) ++ m in
      let k := String.length m' in
      take (k - f) m' ++ "." ++ drop (k - f) m'
  end.

(** [x.toFixed(f)].  The integer [n] for which [n / 10^f - x] is closest to
    zero, the larger one on a tie, is [floor (x * 10^f + 1/2)]. *)
Definition toFixed (x : number) (f : nat) : string :=
  match x with
  | S754_nan => "NaN"
  | S754_infinity false => "Infinity"
  | S754_infinity true => "-Infinity"
  | S754_zero _ => point f 0
  | S754_finite s m e =>
      let a := num_of m e in
      let b := den_of e in
      let sign := if s then "-" else "" in
      if b * 10 ^ 21 <=? a then sign ++ positive_to_string m e
      else
        let n := (2 * a * 10 ^ Z.of_nat f + b) / (2 * b) in
        sign ++ point f n
  end.

(** The stored form [(q, e)] of the integer [N]: a 53-bit mantissa with
    [q * 2^e = N], written without negative powers. *)
Definition stores (N : Z) (q : positive) (e : Z) : Prop :=
  Zpos (digits2_pos q) = 53 /\ -52 <= e <= 1 /\ Zpos q * 2 ^ (e + 52) = N * 2 ^ 52.

End JS.

(** ** The cart: line items, quantity handlers, order summary *)

Module Bag.
Import JS.

Local Open Scope string_scope.
Local Open Scope Z_scope.

(** One entry of [cartItems]. *)
Record item : Type := {
  id : number;
  name : string;
  details : string;
  price : number;
  quantity : number
}.

(** [{ ...item, quantity: q }] *)
Definition with_quantity (it : item) (q : number) : item :=
  {| id := id it; name := name it; details := details it;
     price := price it; quantity := q |}.

(** Flat shipping cost for all orders: [15.00]. *)
Definition SHIPPING_COST : number := decimal 1500 2.

(** The initial value of the [cartItems] state. *)
Definition initialCartItems : list item :=
  [ {| id := of_Z 1; name := "Athletic Gear 1"; details := "Size L - Black";
       price := decimal 4599 2; quantity := of_Z 2 |};
    {| id := of_Z 2; name := "Athletic Gear 2"; details := "Size M - Red";
       price := decimal 5299 2; quantity := of_Z 1 |};
    {| id := of_Z 3; name := "Athletic Gear 3"; details := "Size XL - Blue";
       price := decimal 3895 2; quantity := of_Z 3 |} ].

(** The updater passed to [setCartItems] by [incrementQuantity(id)]:
    [items.map(item => item.id === id
                       ? { ...item, quantity: item.quantity + 1 } : item)]. *)
Definition incrementQuantity (id0 : number) (items : list item) : list item :=
  map (fun it =>
         if strict_eq (id it) id0
         then with_quantity it (add (quantity it) (of_Z 1))
         else it)
      items.

(** The updater passed to [setCartItems] by [decrementQuantity(id)]:
    [items.map(item => item.id === id && item.quantity > 1
                       ? { ...item, quantity: item.quantity - 1 } : item)]. *)
Definition decrementQuantity (id0 : number) (items : list item) : list item :=
  map (fun it =>
         if strict_eq (id it) id0 && gt (quantity it) (of_Z 1)
         then with_quantity it (sub (quantity it) (of_Z 1))
         else it)
      items.

(** [cartItems.reduce((sum, item) => sum + (item.price * item.quantity), 0)] *)
Definition subtotal (cartItems : list item) : number :=
  fold_left (fun sum it => add sum (mul (price it) (quantity it)))
            cartItems (of_Z 0).

(** [cartItems.reduce((sum, item) => sum + item.quantity, 0)] *)
Definition totalItems (cartItems : list item) : number :=
  fold_left (fun sum it => add sum (quantity it)) cartItems (of_Z 0).

(** [subtotal + SHIPPING_COST] *)
Definition total (cartItems : list item) : number :=
  add (subtotal cartItems) SHIPPING_COST.

(** The integer a number stands for, when it is one. *)
Definition to_Z (x : number) : option Z :=
  match x with
  | S754_zero _ => Some 0
  | S754_finite s m e =>
      let v := match e with
               | Zneg p => if Zpos m mod 2 ^ Zpos p =? 0
                           then Some (Zpos m / 2 ^ Zpos p) else None
               | _ => Some (Zpos m * 2 ^ e)
               end in
      option_map (fun n => if s then - n else n) v
  | _ => None
  end.

(** A quantity the data model allows and binary64 still counts exactly:
    the stored form of an integer from 1 up to [bound]. *)
Definition counted (bound : Z) (q : number) : bool :=
  match to_Z q with
  | Some n => (1 <=? n) && (n <=? bound) && same q (of_Z n)
  | None => false
  end.

(** The largest integer up to which every integer is a binary64. *)
Definition MAX_EXACT : Z := 2 ^ 53.

(** A cart whose one line has reached the quantity 2^53. *)
Definition crowded : list item :=
  [ {| id := of_Z 1; name := "Athletic Gear 1"; details := "Size L - Black";
       price := decimal 4599 2; quantity := of_Z (2 ^ 53) |} ].

End Bag.

(** ** The textbook sum, in the arithmetic of the program *)

Module Spec.
Import JS Bag.

Local Open Scope string_scope.
Local Open Scope Z_scope.

(** [Sigma n f] is the sum of [f 0], ..., [f (n-1)], defined by its partial
    sums: the empty sum is [0] and each further term is added to the sum of
    the terms before it. *)
Fixpoint Sigma (n : nat) (f : nat -> number) : number :=
  match n with
  | O => of_Z 0
  | S k => add (Sigma k f) (f k)
  end.

(** The [i]-th line item of a cart (a line of zeros past its end). *)
Definition line (items : list item) (i : nat) : item :=
  nth i items
      {| id := of_Z 0; name := ""; details := "";
         price := of_Z 0; quantity := of_Z 0 |}.

(** The value of a finite number, counted in units of 2^-1074: every
    binary64 is a whole multiple of that unit. *)
Definition value (x : number) : Z :=
  match x with
  | S754_finite s m e =>
      if s then - (Zpos m * 2 ^ (e + 1074)) else Zpos m * 2 ^ (e + 1074)
  | _ => 0
  end.

(** The unit in the last place of a finite number, in the same units: the
    distance to the next binary64 of the same exponent. *)
Definition ulp (x : number) : Z :=
  match x with
  | S754_finite _ _ e => 2 ^ (e + 1074)
  | _ => 0
  end.

(** Neither NaN nor an infinity. *)
Definition isFinite (x : number) : bool :=
  match x with
  | S754_zero _ | S754_finite _ _ _ => true
  | _ => false
  end.

(** A positive finite number as binary64 stores it: at most 53 bits of
    mantissa, all 53 of them unless the exponent is the smallest one. *)
Definition stored (x : number) : bool :=
  match x with
  | S754_finite false m e => valid x
  | _ => false
  end.

(** Zero, or a positive finite number less than [2^(E+53)]. *)
Definition below (E : Z) (x : number) : bool :=
  match x with
  | S754_zero _ => true
  | S754_finite false m e => stored x && (Zpos (digits2_pos m) + e <=? E + 53)
  | _ => false
  end.

(** Every unit price of the cart is a finite number that is not negative. *)
Definition priced (items : list item) : Prop :=
  Forall (fun it => below 971 (price it) = true) items.

(** The integer a quantity stands for ([0] when it is none). *)
Definition pieces (it : item) : Z :=
  match to_Z (quantity it) with
  | Some n => n
  | None => 0
  end.

(** The sum over all lines of unit price times quantity, without any
    rounding, in units of 2^-1074. *)
Definition exact_subtotal (items : list item) : Z :=
  fold_right (fun it acc => value (price it) * pieces it + acc) 0 items.

(** [x] stands for the exact amount [s] after roundings that add up to at
    most [h] halves of a unit in the last place of [x]; an amount past
    the largest binary64 has become [Infinity]. *)
Definition within (h : Z) (s : Z) (x : number) : Prop :=
  match x with
  | S754_zero _ => s = 0
  | S754_infinity false => True
  | S754_finite false m e =>
      stored x = true /\ 2 * Z.abs (value x - s) <= h * ulp x
  | _ => False
  end.






(** Every quantity of the cart is an integer from 1 to 2^53, as stored. *)
Definition quantities_counted (items : list item) : Prop :=
  Forall (fun it => counted MAX_EXACT (quantity it) = true) items.

(** The sum of the quantities as integers. *)
Definition quantity_sum (items : list item) : Z :=
  fold_right (fun it acc => match to_Z (quantity it) with
                            | Some n => n + acc
                            | None => acc
                            end) 0 items.

End Spec.

(** ** The screen: React state, dialogs, the payment promise *)

Module Screen.
Import JS Bag.

Local Open Scope string_scope.
Local Open Scope Z_scope.

(** What [require('react-native-paypal').PayPal] evaluates to. *)
Inductive PayPalModule : Type := react_native_paypal.

(** The platform the bundle runs on: [Platform.OS], and the result of the
    [require] at module level ([None] when it throws). *)
Record platform : Type := {
  OS : string;
  required : option PayPalModule
}.

(** The module variable [PayPal]: [null], then assigned only when
    [Platform.OS !== 'web'] and the [require] inside [try] succeeds. *)
Definition PayPal (p : platform) : option PayPalModule :=
  if negb (String.eqb (OS p) "web") then required p else None.

(** The one [onPress] closure the screen hands to a dialog:
    [() => { setCartItems([]); }]. *)
Inductive callback : Type := clear_cart.

Record button : Type := { text : string; onPress : option callback }.

(** The arguments of one [Alert.alert(title, message, buttons)]. *)
Record alert : Type := {
  title : string;
  message : string;
  buttons : list button
}.

Record paymentData : Type := {
  amount : string;
  currency : string;
  description : string;
  clientId : string;
  environment : string
}.

(** The value the payment promise is fulfilled with, reduced to the one
    field the screen reads: [response.response.id]. *)
Record paypalResponse : Type := { response_id : string }.

Inductive settlement : Type := pending | settled.

Inductive log_entry : Type :=
| payment_successful (response : paypalResponse)
| payment_error (error : string)
| payment_successful_without_response.

(** The state of the mounted screen between two events.

    - [cartItems] is the React state and [cartItems_ref] the identity of the
      array it holds: [setCartItems] always installs a new array;
    - [memo] is the cell of [useMemo]: the identity of the dependency it was
      computed for, and the pair [{ subtotal, totalItems }];
    - [alerts] are the dialogs on display, oldest first;
    - [payments] are the calls made to [PayPal.payWithPayPal], oldest first,
      each with the state of its promise;
    - [console] is what has been logged. *)
Record screen : Type := {
  cartItems : list item;
  cartItems_ref : nat;
  memo : nat * (number * number);
  alerts : list alert;
  payments : list (paymentData * settlement);
  console : list log_entry
}.

Definition setCartItems (update : list item -> list item) (w : screen) : screen :=
  {| cartItems := update (cartItems w);
     cartItems_ref := S (cartItems_ref w);
     memo := memo w; alerts := alerts w;
     payments := payments w; console := console w |}.

(** A dialog is put on display, after those already there. *)
Definition display (a : alert) (w : screen) : screen :=
  {| cartItems := cartItems w; cartItems_ref := cartItems_ref w;
     memo := memo w; alerts := (alerts w ++ [a])%list;
     payments := payments w; console := console w |}.

(** [Alert.alert(title, message, buttons)].  On a native platform the
    dialog is put on display.  In the web bundle ['react-native'] is
    react-native-web, whose [Alert.alert] is an empty method: nothing is
    shown, so no [onPress] of the call can ever run. *)
Definition Alert_alert (p : platform) (a : alert) (w : screen) : screen :=
  if String.eqb (OS p) "web" then w else display a w.

Definition payWithPayPal (d : paymentData) (w : screen) : screen :=
  {| cartItems := cartItems w; cartItems_ref := cartItems_ref w;
     memo := memo w; alerts := alerts w;
     payments := (payments w ++ [(d, pending)])%list; console := console w |}.

Definition console_log (l : log_entry) (w : screen) : screen :=
  {| cartItems := cartItems w; cartItems_ref := cartItems_ref w;
     memo := memo w; alerts := alerts w;
     payments := payments w; console := (console w ++ [l])%list |}.

(** The factory given to [useMemo]. *)
Definition summary (items : list item) : number * number :=
  (Bag.subtotal items, Bag.totalItems items).

(** [useMemo(factory, [dep])]: the stored value when the dependency is the
    same object as last time, a fresh one otherwise. *)
Definition useMemo {V : Type} (factory : unit -> V) (dep : nat)
    (cell : nat * V) : nat * V :=
  if Nat.eqb (fst cell) dep then cell else (dep, factory tt).

(** One run of the component body, as far as the order summary goes. *)
Definition render (w : screen) : screen :=
  {| cartItems := cartItems w; cartItems_ref := cartItems_ref w;
     memo := useMemo (fun _ => summary (cartItems w)) (cartItems_ref w) (memo w);
     alerts := alerts w; payments := payments w; console := console w |}.

(** The constants [subtotal], [totalItems] and [total] of the last render:
    what the summary shows and what the handlers close over. *)
Definition subtotal (w : screen) : number := fst (snd (memo w)).
Definition totalItems (w : screen) : number := snd (snd (memo w)).
Definition total (w : screen) : number := add (subtotal w) SHIPPING_COST.

Definition newline : string := String "010"%char EmptyString.

Definition demo_alert : alert :=
  {| title := "Demo Mode";
     message := "PayPal payment simulation completed successfully!"
                ++ newline ++ newline
                ++ "Note: PayPal integration works on mobile devices. This is a demo for web.";
     buttons := [ {| text := "OK"; onPress := Some clear_cart |} ] |}.

Definition unavailable_alert : alert :=
  {| title := "PayPal Unavailable";
     message := "PayPal payment is not available on this platform.";
     buttons := [ {| text := "OK"; onPress := None |} ] |}.

Definition success_alert (response : paypalResponse) : alert :=
  {| title := "Payment Successful!";
     message := "Transaction ID: " ++ response_id response;
     buttons := [ {| text := "OK"; onPress := Some clear_cart |} ] |}.

Definition failed_alert : alert :=
  {| title := "Payment Failed";
     message := "There was an error processing your payment. Please try again.";
     buttons := [ {| text := "OK"; onPress := None |} ] |}.

(** The object literal [paymentData] built by [handlePayPalPayment]. *)
Definition make_paymentData (w : screen) : paymentData :=
  {| amount := toFixed (total w) 2;
     currency := "USD";
     description := "Extreme Fit - " ++ toString (totalItems w) ++ " items";
     clientId := "AX5LCRqe63mpn5Iuk5dD6Z6E32Qn6skf2MdRRGmtDDPQwvKMdx76rqjSbYgISFz8L5fuR_sFGHmFy7fh";
     environment := "sandbox" |}.

(** The body of [handlePayPalPayment], up to the call that returns the
    promise. *)
Definition handlePayPalPayment (p : platform) (w : screen) : screen :=
  if String.eqb (OS p) "web" then Alert_alert p demo_alert w
  else
    match PayPal p with
    | None => Alert_alert p unavailable_alert w
    | Some _ => payWithPayPal (make_paymentData w) w
    end.

(** The [.then] callback, on a value that has a [response]. *)
Definition on_fulfilled (p : platform) (response : paypalResponse)
    (w : screen) : screen :=
  Alert_alert p (success_alert response)
              (console_log (payment_successful response) w).

(** The [.catch] callback. *)
Definition on_rejected (p : platform) (error : string) (w : screen) : screen :=
  Alert_alert p failed_alert (console_log (payment_error error) w).

(** The [.then] callback on a value without a [response]: after the log,
    reading [response.response.id] throws a TypeError before any dialog is
    asked for, and the [.catch] chained behind [.then] receives it. *)
Definition on_fulfilled_without_response (p : platform) (w : screen) : screen :=
  on_rejected p "TypeError" (console_log payment_successful_without_response w).

Definition run_callback (c : callback) (w : screen) : screen :=
  match c with
  | clear_cart => setCartItems (fun _ => []) w
  end.

Fixpoint remove_nth {A : Type} (n : nat) (l : list A) : list A :=
  match n, l with
  | _, [] => []
  | O, _ :: l' => l'
  | S n', x :: l' => x :: remove_nth n' l'
  end.

Fixpoint settle (k : nat) (ps : list (paymentData * settlement))
  : list (paymentData * settlement) :=
  match k, ps with
  | _, [] => []
  | O, (d, _) :: ps' => (d, settled) :: ps'
  | S k', x :: ps' => x :: settle k' ps'
  end.

Definition close_alert (a : nat) (w : screen) : screen :=
  {| cartItems := cartItems w; cartItems_ref := cartItems_ref w;
     memo := memo w; alerts := remove_nth a (alerts w);
     payments := payments w; console := console w |}.

Definition settle_payment (k : nat) (w : screen) : screen :=
  {| cartItems := cartItems w; cartItems_ref := cartItems_ref w;
     memo := memo w; alerts := alerts w;
     payments := settle k (payments w); console := console w |}.

(** What can happen to the mounted screen: a press on a quantity button, on
    the checkout button, on button [b] of the dialog at position [a]; the
    promise of the [k]-th payment settling either way, the fulfilment with
    a value that has a [response] or with one that has none. *)
Inductive event : Type :=
| press_increment (i : number)
| press_decrement (i : number)
| press_checkout
| press_alert_button (a b : nat)
| payment_fulfilled (k : nat) (response : paypalResponse)
| payment_rejected (k : nat) (error : string)
| payment_fulfilled_without_response (k : nat).

(** The handler an event runs; [None] when the event cannot happen (no
    such dialog or button, no such promise, a promise already settled). *)
Definition handle (p : platform) (ev : event) (w : screen) : option screen :=
  match ev with
  | press_increment i => Some (setCartItems (incrementQuantity i) w)
  | press_decrement i => Some (setCartItems (decrementQuantity i) w)
  | press_checkout => Some (handlePayPalPayment p w)
  | press_alert_button a b =>
      match nth_error (alerts w) a with
      | Some dlg =>
          match nth_error (buttons dlg) b with
          | Some btn =>
              let w' := close_alert a w in
              Some (match onPress btn with
                    | Some c => run_callback c w'
                    | None => w'
                    end)
          | None => None
          end
      | None => None
      end
  | payment_fulfilled k response =>
      match nth_error (payments w) k with
      | Some (_, pending) => Some (on_fulfilled p response (settle_payment k w))
      | _ => None
      end
  | payment_rejected k error =>
      match nth_error (payments w) k with
      | Some (_, pending) => Some (on_rejected p error (settle_payment k w))
      | _ => None
      end
  | payment_fulfilled_without_response k =>
      match nth_error (payments w) k with
      | Some (_, pending) =>
          Some (on_fulfilled_without_response p (settle_payment k w))
      | _ => None
      end
  end.

(** An event runs its handler, then React renders the component again. *)
Definition step (p : platform) (w : screen) (ev : event) : option screen :=
  option_map render (handle p ev w).

Fixpoint run (p : platform) (w : screen) (evs : list event) : option screen :=
  match evs with
  | [] => Some w
  | ev :: evs' =>
      match step p w ev with
      | Some w' => run p w' evs'
      | None => None
      end
  end.

(** The screen as first rendered. *)
Definition mount : screen :=
  {| cartItems := initialCartItems; cartItems_ref := O;
     memo := (O, summary initialCartItems);
     alerts := []; payments := []; console := [] |}.

(** The summary on display is that of the cart in state. *)
Definition rendered (w : screen) : Prop :=
  memo w = (cartItems_ref w, summary (cartItems w)).

(** Payments whose promise has not settled. *)
Definition in_flight (w : screen) : nat :=
  List.length (filter (fun ps : paymentData * settlement =>
                    match snd ps with pending => true | settled => false end)
                 (payments w)).

(** A screen showing a cart whose one line costs 10^21. *)
Definition costly : screen :=
  {| cartItems := [ {| id := of_Z 1; name := "Athletic Gear 1";
                       details := "Size L - Black";
                       price := of_Z (10 ^ 21); quantity := of_Z 1 |} ];
     cartItems_ref := O;
     memo := (O, summary [ {| id := of_Z 1; name := "Athletic Gear 1";
                              details := "Size L - Black";
                              price := of_Z (10 ^ 21); quantity := of_Z 1 |} ]);
     alerts := []; payments := []; console := [] |}.

(** Three platforms: the web bundle, a phone with the PayPal package, a
    phone where requiring it throws. *)
Definition web : platform := {| OS := "web"; required := None |}.
Definition ios : platform :=
  {| OS := "ios"; required := Some react_native_paypal |}.
Definition android_without_paypal : platform :=
  {| OS := "android"; required := None |}.

End Screen.

(** ** Views of the cart used to state what the handlers keep *)

Module View.
Import JS Bag Screen.

Local Open Scope Z_scope.

(** Everything of a line but its quantity. *)
Definition stock (it : item) : number * string * string * number :=
  (id it, name it, details it, price it).

(** The number of lines an id selects. *)
Definition matching (i : number) (items : list item) : nat :=
  List.length (filter (fun it => strict_eq (id it) i) items).

(** The number of lines [decrementQuantity] rewrites for an id. *)
Definition lowered (i : number) (items : list item) : nat :=
  List.length (filter (fun it => strict_eq (id it) i && gt (quantity it) (of_Z 1))
                      items).

(** A dialog that can only be acknowledged: one button, labelled OK. *)
Definition only_ok (a : alert) : Prop :=
  exists c, buttons a = [ {| text := "OK"; onPress := c |} ].

(** A fulfilled payment has been logged. *)
Definition paid (w : screen) : Prop :=
  exists response, In (payment_successful response) (console w).

(** A dialog with a button that clears the cart. *)
Definition clears (a : alert) : bool :=
  existsb (fun b => match onPress b with Some _ => true | None => false end)
          (buttons a).

(** What holds of every screen a native run leads to: a dialog whose button
    clears the cart is only on display once a payment went through, and the
    cart has as many lines as at the start unless a payment went through. *)
Definition settled_first (n : nat) (w : screen) : Prop :=
  Forall (fun a => clears a = true -> paid w) (alerts w)
  /\ (List.length (cartItems w) = n \/ paid w).

End View.

(** ** The account creation form (CreateAccountPage.js) *)

Module CreateAccountPage.

Local Open Scope string_scope.

(** The five [useState] cells of the form. *)
Record fields : Type := {
  name : string;
  email : string;
  phone : string;
  password : string;
  confirmPassword : string
}.

(** What the page asks of its surroundings: the global [alert] and the two
    methods of the [navigation] prop. *)
Inductive effect : Type :=
| alert (message : string)
| navigate (route : string)
| goBack.

(** The page between two events: its state and what it has asked for so
    far, oldest first. *)
Record page : Type := {
  state : fields;
  effects : list effect
}.

(** The first render: every field is the empty string. *)
Definition initial : page :=
  {| state := {| name := ""; email := ""; phone := ""; password := "";
                 confirmPassword := "" |};
     effects := [] |}.

(** [handleCreateAccount]: [alert('Account created!')], then
    [navigation && navigation.navigate('Main')]. *)
Definition handleCreateAccount (navigation : bool) (pg : page) : page :=
  {| state := state pg;
     effects := (effects pg ++ [alert "Account created!"]
                 ++ (if navigation then [navigate "Main"] else []))%list |}.

(** The [onPress] of "Back to Welcome":
    [navigation && navigation.goBack()]. *)
Definition pressBack (navigation : bool) (pg : page) : page :=
  {| state := state pg;
     effects := (effects pg ++ (if navigation then [goBack] else []))%list |}.

(** The text inputs ([onChangeText] is the setter of the cell) and the two
    touchables. *)
Inductive input : Type :=
| setName (text : string)
| setEmail (text : string)
| setPhone (text : string)
| setPassword (text : string)
| setConfirmPassword (text : string)
| press_create
| press_back.

Definition edit (ev : input) (f : fields) : fields :=
  match ev with
  | setName t =>
      {| name := t; email := email f; phone := phone f;
         password := password f; confirmPassword := confirmPassword f |}
  | setEmail t =>
      {| name := name f; email := t; phone := phone f;
         password := password f; confirmPassword := confirmPassword f |}
  | setPhone t =>
      {| name := name f; email := email f; phone := t;
         password := password f; confirmPassword := confirmPassword f |}
  | setPassword t =>
      {| name := name f; email := email f; phone := phone f;
         password := t; confirmPassword := confirmPassword f |}
  | setConfirmPassword t =>
      {| name := name f; email := email f; phone := phone f;
         password := password f; confirmPassword := t |}
  | press_create | press_back => f
  end.

Definition handle_input (navigation : bool) (pg : page) (ev : input) : page :=
  match ev with
  | press_create => handleCreateAccount navigation pg
  | press_back => pressBack navigation pg
  | _ => {| state := edit ev (state pg); effects := effects pg |}
  end.

Definition handle_inputs (navigation : bool) (pg : page) (evs : list input) : page :=
  fold_left (handle_input navigation) evs pg.

(** What a press asks for, whatever the form holds. *)
Definition asked (navigation : bool) (ev : input) : list effect :=
  match ev with
  | press_create =>
      alert "Account created!" :: (if navigation then [navigate "Main"] else [])
  | press_back => if navigation then [goBack] else []
  | _ => []
  end.

End CreateAccountPage.

(** * Facts *)

(** ** Binary64 arithmetic on counted integers *)

Module JSFacts.
Import JS Bag.

Local Open Scope Z_scope.

Lemma digits2_bounds (p : positive) :
  2 ^ (Zpos (digits2_pos p) - 1) <= Zpos p < 2 ^ Zpos (digits2_pos p).
Proof.
  induction p as [p IH | p IH |]; cbn [digits2_pos].
  - rewrite Pos2Z.inj_succ.
    replace (Z.succ (Zpos (digits2_pos p)) - 1) with (Z.succ (Zpos (digits2_pos p) - 1)) by lia.
    rewrite !Z.pow_succ_r by lia. lia.
  - rewrite Pos2Z.inj_succ.
    replace (Z.succ (Zpos (digits2_pos p)) - 1) with (Z.succ (Zpos (digits2_pos p) - 1)) by lia.
    rewrite !Z.pow_succ_r by lia. lia.
  - cbn. lia.
Qed.

Lemma digits2_unique (p : positive) (d : Z) :
  2 ^ (d - 1) <= Zpos p < 2 ^ d -> Zpos (digits2_pos p) = d.
Proof.
  intros [Hlo Hhi]. pose proof (digits2_bounds p) as [Blo Bhi].
  assert (0 < d) as Hd.
  { destruct (Z.lt_trichotomy d 0) as [L | [E | G]]; auto.
    - rewrite (Z.pow_neg_r 2 d) in Hhi by lia. lia.
    - subst d. cbn in Hhi. lia. }
  destruct (Z.lt_trichotomy (Zpos (digits2_pos p)) d) as [L | [E | G]]; auto; exfalso.
  - assert (2 ^ Zpos (digits2_pos p) <= 2 ^ (d - 1)) by (apply Z.pow_le_mono_r; lia). lia.
  - assert (2 ^ d <= 2 ^ (Zpos (digits2_pos p) - 1)) by (apply Z.pow_le_mono_r; lia). lia.
Qed.

Lemma iter_xO (d m : positive) : Zpos (Pos.iter xO m d) = Zpos m * 2 ^ Zpos d.
Proof.
  induction d as [| d IH] using Pos.peano_ind.
  - cbn. lia.
  - rewrite Pos.iter_succ, Pos2Z.inj_succ, Z.pow_succ_r by lia.
    rewrite Pos2Z.inj_xO, IH. lia.
Qed.

Lemma iter_pos_nat {A : Type} (f : A -> A) (p : positive) (x : A) :
  iter_pos f p x = Nat.iter (Pos.to_nat p) f x.
Proof.
  revert x. induction p as [p IH | p IH |]; intros x; cbn [iter_pos].
  - rewrite !IH, Pos2Nat.inj_xI. cbn [Nat.iter Nat.mul].
    rewrite <- Nat.iter_add. rewrite Nat.iter_succ_r. f_equal. lia.
  - rewrite !IH, Pos2Nat.inj_xO. rewrite <- Nat.iter_add. f_equal. lia.
  - reflexivity.
Qed.

Lemma shr_1_even (m : positive) :
  shr_1 {| shr_m := Zpos m~0; shr_r := false; shr_s := false |}
  = {| shr_m := Zpos m; shr_r := false; shr_s := false |}.
Proof. reflexivity. Qed.

Lemma iter_shr_1_exact (k : nat) (q : positive) :
  Nat.iter k shr_1 {| shr_m := Zpos q * 2 ^ Z.of_nat k; shr_r := false; shr_s := false |}
  = {| shr_m := Zpos q; shr_r := false; shr_s := false |}.
Proof.
  revert q. induction k as [| k IH]; intros q.
  - unfold Nat.iter; cbn [nat_rect]. change (Z.of_nat 0) with 0.
    rewrite Z.pow_0_r, Z.mul_1_r. reflexivity.
  - rewrite Nat.iter_succ.
    replace (Zpos q * 2 ^ Z.of_nat (S k)) with (Zpos q~0 * 2 ^ Z.of_nat k)
      by (rewrite Nat2Z.inj_succ, Z.pow_succ_r by lia; lia).
    rewrite IH. reflexivity.
Qed.

Lemma pow2_pos (k : Z) : 0 <= k -> 0 < 2 ^ k.
Proof. intros. apply Z.pow_pos_nonneg; lia. Qed.

(** [binary_round_aux] on an exact mantissa of at least [prec] digits whose
    surplus low bits are all zero: the low bits are dropped. *)
Lemma binary_round_aux_exact (s : bool) (q : positive) (n e : Z) :
  0 <= n ->
  Zpos (digits2_pos q) = 53 ->
  -1074 <= e + n -> e + n <= 971 ->
  binary_round_aux prec emax s (Zpos q * 2 ^ n) e loc_Exact
  = S754_finite s q (e + n).
Proof.
  intros Hn Hq Hlo Hhi.
  pose proof (digits2_bounds q) as Bq. rewrite Hq in Bq.
  pose proof (pow2_pos n Hn) as Pn.
  assert (Hm : exists m, Zpos q * 2 ^ n = Zpos m) by (exists (Z.to_pos (Zpos q * 2 ^ n)); lia).
  destruct Hm as [m Hm].
  assert (Hd : Zpos (digits2_pos m) = 53 + n).
  { apply digits2_unique. rewrite <- Hm.
    replace (53 + n - 1) with (52 + n) by lia. rewrite !Z.pow_add_r by lia. nia. }
  unfold binary_round_aux, shr_fexp. rewrite Hm. cbn [Zdigits2 shr_record_of_loc].
  rewrite Hd. unfold fexp, emin, prec, emax.
  replace (Z.max (53 + n + e - 53) (3 - 1024 - 53) - e) with n by lia.
  destruct n as [| n | n]; [| | lia].
  - cbn [shr shr_m loc_of_shr_record round_nearest_even Zdigits2 shr_record_of_loc].
    assert (m = q) by lia. subst m. rewrite Hq.
    replace (Z.max (53 + e - 53) (3 - 1024 - 53) - e) with 0 by lia.
    cbn [shr shr_m]. replace (e + 0) with e in * by lia.
    destruct (Z.leb_spec e (1024 - 53)); [reflexivity | lia].
  - cbn [shr]. rewrite iter_pos_nat. rewrite <- Hm.
    replace (Zpos q * 2 ^ Zpos n) with (Zpos q * 2 ^ Z.of_nat (Pos.to_nat n))
      by (rewrite positive_nat_Z; reflexivity).
    rewrite iter_shr_1_exact.
    cbn [shr_m loc_of_shr_record round_nearest_even Zdigits2 shr_record_of_loc].
    rewrite Hq.
    replace (Z.max (53 + (e + Zpos n) - 53) (3 - 1024 - 53) - (e + Zpos n)) with 0 by lia.
    cbn [shr shr_m].
    destruct (Z.leb_spec (e + Zpos n) (1024 - 53)); [reflexivity | lia].
Qed.


Lemma stores_exists (N : Z) :
  1 <= N <= 2 ^ 53 -> exists q e, stores N q e.
Proof.
  intros [Hlo Hhi].
  destruct (Z.eq_dec N (2 ^ 53)) as [E | NE].
  - exists (Z.to_pos (2 ^ 52)), 1. subst N. split; [reflexivity | split; [lia | reflexivity]].
  - destruct N as [| p | p]; try lia.
    pose proof (digits2_bounds p) as [Blo Bhi].
    set (d := Zpos (digits2_pos p)) in *.
    assert (Hd : 1 <= d <= 53).
    { split; [unfold d; lia |].
      destruct (Z.le_gt_cases d 53) as [L | G]; auto.
      assert (2 ^ 53 <= 2 ^ (d - 1)) by (apply Z.pow_le_mono_r; lia). lia. }
    pose proof (pow2_pos (53 - d) ltac:(lia)) as P1.
    pose proof (pow2_pos (d - 1) ltac:(lia)) as P2.
    assert (E1 : 2 ^ (d - 1) * 2 ^ (53 - d) = 2 ^ 52)
      by (rewrite <- Z.pow_add_r by lia; f_equal; lia).
    assert (E2 : 2 ^ d * 2 ^ (53 - d) = 2 ^ 53)
      by (rewrite <- Z.pow_add_r by lia; f_equal; lia).
    exists (Z.to_pos (Zpos p * 2 ^ (53 - d))), (d - 53).
    assert (Hq : Zpos (Z.to_pos (Zpos p * 2 ^ (53 - d))) = Zpos p * 2 ^ (53 - d))
      by (apply Z2Pos.id; lia).
    split; [| split; [lia |]].
    + apply digits2_unique. rewrite Hq. change (53 - 1) with 52. nia.
    + rewrite Hq. replace (d - 53 + 52) with (d - 1) by lia.
      rewrite <- Z.mul_assoc. rewrite (Z.mul_comm (2 ^ (53 - d))). rewrite E1. reflexivity.
Qed.

Lemma binary_round_stores (s : bool) (M q : positive) (ez e : Z) :
  Zpos (digits2_pos q) = 53 -> -52 <= ez <= 1 -> -52 <= e <= 1 ->
  Zpos M * 2 ^ (ez + 52) = Zpos q * 2 ^ (e + 52) ->
  binary_round prec emax s M ez = S754_finite s q e.
Proof.
  intros Hq Hez He Heq.
  pose proof (digits2_bounds q) as Bq. rewrite Hq in Bq. change (53 - 1) with 52 in Bq.
  pose proof (pow2_pos (ez + 52) ltac:(lia)) as Pz.
  destruct (Z.le_gt_cases ez e) as [L | G].
  - (* the mantissa is long: its low bits are dropped *)
    pose proof (pow2_pos (e - ez) ltac:(lia)) as Pn.
    assert (HM : Zpos M = Zpos q * 2 ^ (e - ez)).
    { replace (e + 52) with ((e - ez) + (ez + 52)) in Heq by lia.
      rewrite (Z.pow_add_r 2 (e - ez) (ez + 52)) in Heq by lia.
      apply (Z.mul_reg_r _ _ (2 ^ (ez + 52))); [lia |]. rewrite Heq. ring. }
    assert (HdM : Zpos (digits2_pos M) = 53 + (e - ez)).
    { apply digits2_unique. rewrite HM.
      replace (53 + (e - ez) - 1) with (52 + (e - ez)) by lia.
      rewrite !Z.pow_add_r by lia. nia. }
    unfold binary_round, shl_align. rewrite HdM.
    unfold fexp, emin, prec, emax.
    replace (Z.max (53 + (e - ez) + ez - 53) (3 - 1024 - 53) - ez) with (e - ez) by lia.
    destruct (e - ez) as [| n | n] eqn:En; try lia;
      fold prec; fold emax; rewrite HM.
    + rewrite (binary_round_aux_exact s q 0 ez) by lia. f_equal. lia.
    + rewrite (binary_round_aux_exact s q (Zpos n) ez) by lia. f_equal. lia.
  - (* the mantissa is short: it is shifted left *)
    pose proof (pow2_pos (ez - e) ltac:(lia)) as Pn.
    assert (HM : Zpos q = Zpos M * 2 ^ (ez - e)).
    { replace (ez + 52) with ((ez - e) + (e + 52)) in Heq by lia.
      rewrite (Z.pow_add_r 2 (ez - e) (e + 52)) in Heq by lia.
      pose proof (pow2_pos (e + 52) ltac:(lia)).
      apply (Z.mul_reg_r _ _ (2 ^ (e + 52))); [lia |]. rewrite <- Heq. ring. }
    assert (HdM : Zpos (digits2_pos M) = 53 - (ez - e)).
    { apply digits2_unique.
      assert (ez - e <= 52).
      { destruct (Z.le_gt_cases (ez - e) 52) as [? | G']; auto.
        assert (2 ^ 53 <= 2 ^ (ez - e)) by (apply Z.pow_le_mono_r; lia). nia. }
      assert (2 ^ (53 - (ez - e) - 1) * 2 ^ (ez - e) = 2 ^ 52)
        by (rewrite <- Z.pow_add_r by lia; f_equal; lia).
      assert (2 ^ (53 - (ez - e)) * 2 ^ (ez - e) = 2 ^ 53)
        by (rewrite <- Z.pow_add_r by lia; f_equal; lia).
      nia. }
    unfold binary_round, shl_align. rewrite HdM.
    unfold fexp, emin, prec, emax.
    replace (Z.max (53 - (ez - e) + ez - 53) (3 - 1024 - 53) - ez) with (e - ez) by lia.
    replace (Z.max (53 - (ez - e) + ez - 53) (3 - 1024 - 53)) with e by lia.
    destruct (e - ez) as [| n | n] eqn:En; try lia.
    assert (Pos.iter xO M n = q).
    { apply Pos2Z.inj. rewrite iter_xO, HM. f_equal. f_equal. lia. }
    subst q. fold prec; fold emax.
    replace (Zpos (Pos.iter xO M n)) with (Zpos (Pos.iter xO M n) * 2 ^ 0) by lia.
    rewrite (binary_round_aux_exact s _ 0 e) by lia. f_equal. lia.
Qed.

Lemma of_Z_stores (N : Z) (q : positive) (e : Z) :
  1 <= N -> stores N q e -> of_Z N = S754_finite false q e.
Proof.
  intros HN (Hq & He & Heq). destruct N as [| p | p]; try lia.
  unfold of_Z, binary_normalize.
  apply binary_round_stores; auto; try lia.
Qed.

Lemma shl_align_fst (q : positive) (e ez : Z) :
  ez <= e -> Zpos (fst (shl_align q e ez)) = Zpos q * 2 ^ (e - ez).
Proof.
  intros H. unfold shl_align.
  destruct (ez - e) as [| n | n] eqn:E; try lia; cbn [fst].
  - replace (e - ez) with 0 by lia. lia.
  - rewrite iter_xO. f_equal. f_equal. lia.
Qed.

Lemma stores_scaled (N : Z) (q : positive) (e ez : Z) :
  stores N q e -> -52 <= ez <= e ->
  Zpos q * 2 ^ (e - ez) * 2 ^ (ez + 52) = N * 2 ^ 52.
Proof.
  intros (_ & He & Heq) Hz. rewrite <- Heq, <- Z.mul_assoc.
  rewrite <- Z.pow_add_r by lia. f_equal. f_equal. lia.
Qed.

(** Sums and differences of counted integers are exact up to 2^53. *)
Lemma add_exact (a b : Z) :
  1 <= a -> 1 <= b -> a + b <= 2 ^ 53 ->
  add (of_Z a) (of_Z b) = of_Z (a + b).
Proof.
  intros Ha Hb Hab.
  destruct (stores_exists a ltac:(lia)) as (qa & ea & Sa).
  destruct (stores_exists b ltac:(lia)) as (qb & eb & Sb).
  destruct (stores_exists (a + b) ltac:(lia)) as (qc & ec & Sc).
  rewrite (of_Z_stores a qa ea), (of_Z_stores b qb eb),
          (of_Z_stores (a + b) qc ec) by (auto; lia).
  unfold add, SFadd. cbn [cond_Zopp].
  set (ez := Z.min ea eb).
  assert (Hz : -52 <= ez <= 1) by (destruct Sa as (_ & ? & _), Sb as (_ & ? & _); lia).
  pose proof (shl_align_fst qa ea ez ltac:(lia)) as Fa.
  pose proof (shl_align_fst qb eb ez ltac:(lia)) as Fb.
  pose proof (stores_scaled a qa ea ez Sa ltac:(lia)) as Ea.
  pose proof (stores_scaled b qb eb ez Sb ltac:(lia)) as Eb.
  rewrite <- Fa in Ea. rewrite <- Fb in Eb.
  cbn [Z.add binary_normalize].
  destruct Sc as (Hqc & Hec & Heqc).
  apply binary_round_stores; auto.
  rewrite Heqc, Pos2Z.inj_add. lia.
Qed.

Lemma sub_exact (a b : Z) :
  1 <= b -> b < a -> a <= 2 ^ 53 ->
  sub (of_Z a) (of_Z b) = of_Z (a - b).
Proof.
  intros Hb Hab Ha.
  destruct (stores_exists a ltac:(lia)) as (qa & ea & Sa).
  destruct (stores_exists b ltac:(lia)) as (qb & eb & Sb).
  destruct (stores_exists (a - b) ltac:(lia)) as (qc & ec & Sc).
  rewrite (of_Z_stores a qa ea), (of_Z_stores b qb eb),
          (of_Z_stores (a - b) qc ec) by (auto; lia).
  unfold sub, SFsub. cbn [cond_Zopp].
  set (ez := Z.min ea eb).
  assert (Hz : -52 <= ez <= 1) by (destruct Sa as (_ & ? & _), Sb as (_ & ? & _); lia).
  pose proof (shl_align_fst qa ea ez ltac:(lia)) as Fa.
  pose proof (shl_align_fst qb eb ez ltac:(lia)) as Fb.
  pose proof (stores_scaled a qa ea ez Sa ltac:(lia)) as Ea.
  pose proof (stores_scaled b qb eb ez Sb ltac:(lia)) as Eb.
  rewrite <- Fa in Ea. rewrite <- Fb in Eb.
  pose proof (pow2_pos (ez + 52) ltac:(lia)) as Pz.
  set (xa := fst (shl_align qa ea ez)) in *.
  set (xb := fst (shl_align qb eb ez)) in *.
  destruct (Zpos xa - Zpos xb) as [| M | M] eqn:EM; try nia.
  cbn [binary_normalize].
  destruct Sc as (Hqc & Hec & Heqc).
  apply binary_round_stores; auto.
  rewrite Heqc, <- EM. lia.
Qed.

(** [q > 1] on counted integers. *)
Lemma gt_one (n : Z) :
  1 <= n <= 2 ^ 53 -> gt (of_Z n) (of_Z 1) = (1 <? n).
Proof.
  intros Hn.
  destruct (stores_exists n Hn) as (q & e & Sq).
  rewrite (of_Z_stores n q e) by (auto; lia).
  destruct Sq as (Hq & He & Heq).
  pose proof (digits2_bounds q) as Bq. rewrite Hq in Bq. change (53 - 1) with 52 in Bq.
  change (of_Z 1) with (S754_finite false 4503599627370496 (-52)).
  unfold gt, SFltb, SFcompare.
  destruct (Z.compare_spec (-52) e) as [E | L | G]; try lia.
  - subst e. change (-52 + 52) with 0 in Heq. rewrite Z.pow_0_r, Z.mul_1_r in Heq.
    change (2 ^ 52) with 4503599627370496 in *.
    assert (n = 1) by lia. subst n.
    assert (q = 4503599627370496%positive) by lia. subst q. reflexivity.
  - assert (2 ^ 1 <= 2 ^ (e + 52)) by (apply Z.pow_le_mono_r; lia).
    change (2 ^ 1) with 2 in *.
    destruct (Z.ltb_spec 1 n); [reflexivity | nia].
Qed.

(** A counted integer reads back as itself. *)
Lemma to_Z_of_Z (n : Z) :
  1 <= n <= 2 ^ 53 -> to_Z (of_Z n) = Some n.
Proof.
  intros Hn.
  destruct (stores_exists n Hn) as (q & e & Sq).
  rewrite (of_Z_stores n q e) by (auto; lia).
  destruct Sq as (Hq & He & Heq).
  unfold to_Z. destruct e as [| p | p]; cbn [option_map].
  - f_equal. change (0 + 52) with 52 in Heq. rewrite Z.pow_0_r. lia.
  - f_equal. assert (Zpos p = 1) by lia.
    replace (Zpos p) with 1 in * by lia. change (1 + 52) with 53 in Heq.
    change (2 ^ 53) with (2 * 2 ^ 52) in Heq. lia.
  - assert (Hp : Zpos q = n * 2 ^ Zpos p).
    { pose proof (pow2_pos (Zneg p + 52) ltac:(lia)).
      apply (Z.mul_reg_r _ _ (2 ^ (Zneg p + 52))); [lia |].
      rewrite Heq, <- Z.mul_assoc, <- Z.pow_add_r by lia.
      f_equal. f_equal. lia. }
    pose proof (pow2_pos (Zpos p) ltac:(lia)).
    rewrite Hp, Z.mod_mul by lia. cbn [Z.eqb option_map].
    rewrite Z.div_mul by lia. reflexivity.
Qed.

Lemma same_refl (x : number) : same x x = true.
Proof.
  destruct x as [s | s | | s m e]; cbn; auto using Bool.eqb_reflx.
  rewrite Bool.eqb_reflx, Pos.eqb_refl, Z.eqb_refl. reflexivity.
Qed.

Lemma same_eq (x y : number) : same x y = true -> x = y.
Proof.
  destruct x as [s | s | | s m e], y as [s' | s' | | s' m' e']; cbn; try discriminate; auto.
  - intros H. apply Bool.eqb_prop in H. congruence.
  - intros H. apply Bool.eqb_prop in H. congruence.
  - intros H. apply andb_prop in H as [H He]. apply andb_prop in H as [Hs Hm].
    apply Bool.eqb_prop in Hs. apply Pos.eqb_eq in Hm. apply Z.eqb_eq in He. congruence.
Qed.

Lemma counted_spec (bound : Z) (q : number) :
  counted bound q = true <-> exists n, 1 <= n <= bound /\ to_Z q = Some n /\ q = of_Z n.
Proof.
  unfold counted. split.
  - destruct (to_Z q) as [n |]; [| discriminate].
    intros H. apply andb_prop in H as [H Hs]. apply andb_prop in H as [H1 H2].
    exists n. apply Z.leb_le in H1. apply Z.leb_le in H2. apply same_eq in Hs. auto.
  - intros (n & Hn & Ht & Hq). rewrite Ht.
    rewrite <- Hq, same_refl.
    destruct Hn as [H1 H2]. apply Z.leb_le in H1. apply Z.leb_le in H2.
    rewrite H1, H2. reflexivity.
Qed.

End JSFacts.

(** ** Rounding to the nearest binary64 *)

Module RoundFacts.
Import JS Bag Spec JSFacts.

Local Open Scope Z_scope.

(** One step of the shifter: halve, keep the bit shifted out, remember
    whether anything was shifted out before. *)
Lemma shr_1_spec (q : Z) (r s : bool) :
  0 <= q ->
  shr_1 {| shr_m := q; shr_r := r; shr_s := s |}
  = {| shr_m := Z.div2 q; shr_r := Z.odd q; shr_s := r || s |}.
Proof. destruct q as [| [p | p |] | p]; try lia; reflexivity. Qed.

(** After [k] steps from an exact mantissa [m]: the quotient, the last bit
    shifted out and whether the bits below it are all zero. *)
Lemma iter_shr_1 (k : nat) (m : Z) :
  0 <= m ->
  exists q r s u,
    Nat.iter k shr_1 {| shr_m := m; shr_r := false; shr_s := false |}
    = {| shr_m := q; shr_r := r; shr_s := s |}
    /\ 0 <= q /\ 0 <= u < 2 ^ Z.of_nat k
    /\ 2 * m = q * 2 ^ (Z.of_nat k + 1) + Z.b2z r * 2 ^ Z.of_nat k + u
    /\ (s = false -> u = 0) /\ (s = true -> 0 < u)
    /\ (k = O -> r = false).
Proof.
  intros Hm. induction k as [| k IH].
  - exists m, false, false, 0. change (Z.of_nat 0) with 0. change (0 + 1) with 1.
    cbn [Nat.iter nat_rect Z.b2z]. rewrite Z.pow_0_r, Z.pow_1_r.
    repeat split; intros; try discriminate; try lia.
  - destruct IH as (q & r & s & u & E & Hq & Hu & Hv & Hs0 & Hs1 & _).
    rewrite Nat.iter_succ, E, shr_1_spec by exact Hq.
    exists (Z.div2 q), (Z.odd q), (r || s)%bool, (Z.b2z r * 2 ^ Z.of_nat k + u).
    pose proof (Z.div2_odd q) as Hd.
    pose proof (pow2_pos (Z.of_nat k) ltac:(lia)) as Pk.
    assert (P1 : 2 ^ (Z.of_nat k + 1) = 2 * 2 ^ Z.of_nat k)
      by (rewrite Z.pow_add_r by lia; lia).
    assert (P2 : 2 ^ Z.of_nat (S k) = 2 * 2 ^ Z.of_nat k)
      by (rewrite Nat2Z.inj_succ, Z.pow_succ_r by lia; lia).
    assert (P3 : 2 ^ (Z.of_nat (S k) + 1) = 4 * 2 ^ Z.of_nat k)
      by (rewrite Z.pow_add_r, P2 by lia; lia).
    split; [reflexivity |].
    split; [apply Z.div2_nonneg; exact Hq |].
    rewrite P2, P3. rewrite P1 in Hv.
    assert (Hb : 0 <= Z.b2z r <= 1) by (destruct r; cbn; lia).
    assert (Ho : 0 <= Z.b2z (Z.odd q) <= 1) by (destruct (Z.odd q); cbn; lia).
    split; [nia |]. split; [nia |].
    split; [| split; [| discriminate]].
    + intros H. apply orb_false_elim in H as [-> ->]. rewrite (Hs0 eq_refl). cbn. lia.
    + intros H. destruct r; cbn [Z.b2z]; [lia |]. cbn in H. specialize (Hs1 H). lia.
Qed.

(** Rounding the shifted mantissa to nearest, ties to even, moves it by at
    most half of what was shifted out. *)
Lemma round_shr (k : nat) (m : Z) :
  0 <= m ->
  exists q m1,
    shr_m (Nat.iter k shr_1 {| shr_m := m; shr_r := false; shr_s := false |}) = q
    /\ round_nearest_even q
         (loc_of_shr_record
            (Nat.iter k shr_1 {| shr_m := m; shr_r := false; shr_s := false |}))
       = m1
    /\ q * 2 ^ Z.of_nat k <= m < (q + 1) * 2 ^ Z.of_nat k
    /\ q <= m1 <= q + 1
    /\ 2 * Z.abs (m - m1 * 2 ^ Z.of_nat k) <= 2 ^ Z.of_nat k.
Proof.
  intros Hm.
  destruct (iter_shr_1 k m Hm) as (q & r & s & u & E & Hq & Hu & Hv & Hs0 & Hs1 & Hk).
  rewrite E. cbn [shr_m]. exists q. eexists. split; [reflexivity |].
  split; [reflexivity |].
  pose proof (pow2_pos (Z.of_nat k) ltac:(lia)) as Pk.
  assert (P1 : 2 ^ (Z.of_nat k + 1) = 2 * 2 ^ Z.of_nat k)
    by (rewrite Z.pow_add_r by lia; lia).
  rewrite P1 in Hv.
  destruct r, s; cbn [loc_of_shr_record round_nearest_even Z.b2z] in *.
  - specialize (Hs1 eq_refl). repeat split; nia.
  - specialize (Hs0 eq_refl). subst u.
    destruct k as [| k]; [specialize (Hk eq_refl); discriminate |].
    destruct (Z.even q); repeat split; nia.
  - specialize (Hs1 eq_refl). repeat split; nia.
  - specialize (Hs0 eq_refl). repeat split; nia.
Qed.

Lemma digits2_le (m : positive) (k : Z) :
  Zpos m < 2 ^ k -> Zpos (digits2_pos m) <= k.
Proof.
  intros H. pose proof (digits2_bounds m) as [B _].
  destruct (Z.le_gt_cases (Zpos (digits2_pos m)) k) as [? | G]; [assumption |].
  assert (2 ^ k <= 2 ^ (Zpos (digits2_pos m) - 1)) by (apply Z.pow_le_mono_r; lia).
  lia.
Qed.

Lemma digits2_ge (m : positive) (k : Z) :
  2 ^ (k - 1) <= Zpos m -> k <= Zpos (digits2_pos m).
Proof.
  intros H. pose proof (digits2_bounds m) as [_ B].
  destruct (Z.le_gt_cases k (Zpos (digits2_pos m))) as [? | G]; [assumption |].
  assert (2 ^ Zpos (digits2_pos m) <= 2 ^ (k - 1)) by (apply Z.pow_le_mono_r; lia).
  lia.
Qed.

(** Rounding a mantissa that is long enough for its exponent: the nearest
    stored number, within half a unit in its last place, or infinity past
    the largest exponent. *)
Lemma binary_round_aux_nearest (sx : bool) (mx : positive) (ex : Z) :
  ex <= Z.max (Zpos (digits2_pos mx) + ex - 53) (-1074) ->
  2 ^ (Z.max (Zpos (digits2_pos mx) + ex - 53) (-1074) - ex) <= Zpos mx ->
  exists m e,
    binary_round_aux prec emax sx (Zpos mx) ex loc_Exact
    = (if e <=? 971 then S754_finite sx m e else S754_infinity sx)
    /\ Zpos (digits2_pos m) <= 53
    /\ (Zpos (digits2_pos m) = 53 \/ e = -1074)
    /\ Z.max (Zpos (digits2_pos mx) + ex - 53) (-1074) <= e
       <= Z.max (Zpos (digits2_pos mx) + ex - 53) (-1074) + 1
    /\ 2 * Z.abs (Zpos mx - Zpos m * 2 ^ (e - ex)) <= 2 ^ (e - ex).
Proof.
  intros Hn Hq0.
  pose proof (digits2_bounds mx) as Bx.
  set (d := Zpos (digits2_pos mx)) in *.
  set (E0 := Z.max (d + ex - 53) (-1074)) in *.
  unfold binary_round_aux, shr_fexp. cbn [Zdigits2 shr_record_of_loc]. fold d.
  unfold fexp, emin, prec, emax. change (3 - 1024 - 53) with (-1074). fold E0.
  destruct (E0 - ex) as [| n | n] eqn:En; [| | lia].
  - (* nothing to shift *)
    cbn [shr shr_m loc_of_shr_record round_nearest_even Zdigits2 shr_record_of_loc].
    fold d. fold E0. rewrite En.
    cbn [shr shr_m]. exists mx, ex. change (1024 - 53) with 971.
    split; [reflexivity |]. fold d. split; [lia |]. split; [lia |]. split; [lia |].
    replace (ex - ex) with 0 by lia. rewrite Z.pow_0_r, Z.mul_1_r, Z.sub_diag.
    cbn. lia.
  - cbn [shr]. rewrite iter_pos_nat.
    destruct (round_shr (Pos.to_nat n) (Zpos mx) ltac:(lia))
      as (q & m1 & Eq & Em1 & Hq & Hm1 & Herr).
    rewrite Eq, Em1. clear Eq Em1. rewrite positive_nat_Z in Hq, Herr.
    pose proof (pow2_pos (Zpos n) ltac:(lia)) as Pn.
    assert (Pd : 2 ^ d <= 2 ^ 53 * 2 ^ Zpos n)
      by (rewrite <- Z.pow_add_r by lia; apply Z.pow_le_mono_r; lia).
    assert (Bq : 1 <= q < 2 ^ 53) by nia.
    assert (Bq' : E0 <> -1074 -> 2 ^ 52 <= q).
    { intros NE. assert (Hd : d - 53 = Zpos n) by lia.
      assert (Pd1 : 2 ^ (d - 1) = 2 ^ 52 * 2 ^ Zpos n)
        by (rewrite <- Z.pow_add_r by lia; f_equal; lia).
      rewrite Pd1 in Bx. nia. }
    replace (ex + Zpos n) with E0 by lia.
    destruct (Z.eq_dec m1 (2 ^ 53)) as [Top | NTop].
    + (* the carry: one more bit is shifted out *)
      subst m1. change (2 ^ 53) with (Zpos 9007199254740992).
      cbn [Zdigits2 digits2_pos Pos.succ shr_record_of_loc].
      replace (Z.max (54 + E0 - 53) (-1074) - E0) with 1 by lia.
      cbn [shr iter_pos shr_1 shr_m]. change (1024 - 53) with 971.
      exists 4503599627370496%positive, (E0 + 1).
      split; [reflexivity |].
      change (Zpos (digits2_pos 4503599627370496)) with 53.
      split; [lia |]. split; [lia |]. split; [lia |].
      replace (E0 + 1 - ex) with (Zpos n + 1) by lia.
      rewrite Z.pow_add_r by lia. change (2 ^ 1) with 2.
      change (Zpos 9007199254740992) with (2 ^ 53) in Herr.
      change (Zpos 4503599627370496) with (2 ^ 52).
      change (2 ^ 53) with (2 ^ 52 * 2) in Herr. lia.
    + assert (Bm : 1 <= m1 < 2 ^ 53) by lia.
      destruct m1 as [| m1 | m1]; try lia.
      pose proof (digits2_le m1 53 ltac:(lia)) as D1.
      assert (D2 : E0 <> -1074 -> Zpos (digits2_pos m1) = 53).
      { intros NE. specialize (Bq' NE).
        pose proof (digits2_ge m1 53 ltac:(change (53 - 1) with 52; lia)). lia. }
      cbn [Zdigits2 shr_record_of_loc].
      destruct (Z.max (Zpos (digits2_pos m1) + E0 - 53) (-1074) - E0)
        as [| k | k] eqn:Ek; try lia;
        cbn [shr shr_m]; change (1024 - 53) with 971;
        (exists m1, E0; split; [reflexivity |]; split; [exact D1 |];
         split; [lia |]; split; [lia |];
         replace (E0 - ex) with (Zpos n) by lia; lia).
Qed.

Lemma stored_spec (x : number) :
  stored x = true <->
  exists m e, x = S754_finite false m e
              /\ Zpos (digits2_pos m) <= 53 /\ -1074 <= e <= 971
              /\ (Zpos (digits2_pos m) = 53 \/ e = -1074).
Proof.
  split.
  - destruct x as [s | s | | [|] m e]; cbn [stored]; try discriminate.
    unfold valid, valid_binary, bounded, canonical_mantissa, fexp, emin, prec, emax.
    rewrite andb_true_iff, Z.eqb_eq, Z.leb_le. intros H.
    exists m, e. split; [reflexivity |]. lia.
  - intros (m & e & -> & H1 & H2 & H3). cbn [stored].
    unfold valid, valid_binary, bounded, canonical_mantissa, fexp, emin, prec, emax.
    rewrite andb_true_iff, Z.eqb_eq, Z.leb_le. lia.
Qed.

Lemma below_spec (E : Z) (x : number) :
  below E x = true <->
  (exists s, x = S754_zero s)
  \/ exists m e, x = S754_finite false m e
                 /\ Zpos (digits2_pos m) <= 53 /\ -1074 <= e <= 971
                 /\ (Zpos (digits2_pos m) = 53 \/ e = -1074)
                 /\ Zpos (digits2_pos m) + e <= E + 53.
Proof.
  split.
  - destruct x as [s | s | | [|] m e]; cbn [below]; try discriminate.
    + intros _. left. exists s. reflexivity.
    + rewrite andb_true_iff, Z.leb_le, stored_spec.
      intros [(m' & e' & [= <- <-] & H1 & H2 & H3) He]. right. exists m, e. auto.
  - intros [[s ->] | (m & e & -> & H1 & H2 & H3 & H4)]; [reflexivity |].
    cbn [below]. rewrite andb_true_iff, Z.leb_le, stored_spec.
    split; [exists m, e; auto | exact H4].
Qed.

(** The number of bits of a product. *)
Lemma digits2_mul (mx my : positive) :
  Zpos (digits2_pos mx) + Zpos (digits2_pos my) - 1
  <= Zpos (digits2_pos (mx * my))
  <= Zpos (digits2_pos mx) + Zpos (digits2_pos my).
Proof.
  pose proof (digits2_bounds mx) as Bx. pose proof (digits2_bounds my) as By.
  set (dx := Zpos (digits2_pos mx)) in *. set (dy := Zpos (digits2_pos my)) in *.
  assert (Hx : 1 <= dx) by (unfold dx; lia). assert (Hy : 1 <= dy) by (unfold dy; lia).
  pose proof (pow2_pos (dx - 1) ltac:(lia)). pose proof (pow2_pos (dy - 1) ltac:(lia)).
  split.
  - apply digits2_ge. rewrite Pos2Z.inj_mul.
    replace (dx + dy - 1 - 1) with ((dx - 1) + (dy - 1)) by lia.
    rewrite Z.pow_add_r by lia. nia.
  - apply digits2_le. rewrite Pos2Z.inj_mul, Z.pow_add_r by lia. nia.
Qed.

(** A product of a stored number and a full mantissa is rounded to the
    nearest stored number, or to [Infinity] past the largest exponent. *)
Lemma mul_nearest (mx my : positive) (ex ey : Z) :
  Zpos (digits2_pos mx) <= 53 -> -1074 <= ex ->
  Zpos (digits2_pos my) = 53 -> -52 <= ey ->
  exists m e,
    mul (S754_finite false mx ex) (S754_finite false my ey)
    = (if e <=? 971 then S754_finite false m e else S754_infinity false)
    /\ Zpos (digits2_pos m) <= 53
    /\ (Zpos (digits2_pos m) = 53 \/ e = -1074)
    /\ -1074 <= e <= Z.max (Zpos (digits2_pos mx) + ex + ey) (-1074) + 1
    /\ ex + ey <= e
    /\ 2 * Z.abs (Zpos mx * Zpos my - Zpos m * 2 ^ (e - (ex + ey)))
       <= 2 ^ (e - (ex + ey)).
Proof.
  intros Hx Lx Hy Ly. pose proof (digits2_mul mx my) as Hd. rewrite Hy in Hd.
  pose proof (digits2_bounds my) as By. rewrite Hy in By. change (53 - 1) with 52 in By.
  pose proof (digits2_bounds (mx * my)) as Bm. rewrite Pos2Z.inj_mul in Bm.
  assert (H1 : 1 <= Zpos (digits2_pos mx)) by lia.
  unfold mul, SFmul. cbn [xorb].
  set (d := Zpos (digits2_pos (mx * my))) in *.
  assert (C1 : ex + ey <= Z.max (d + (ex + ey) - 53) (-1074)) by lia.
  assert (C2 : 2 ^ (Z.max (d + (ex + ey) - 53) (-1074) - (ex + ey)) <= Zpos (mx * my)).
  { rewrite Pos2Z.inj_mul.
    destruct (Z.max_spec (d + (ex + ey) - 53) (-1074)) as [[_ ->] | [_ ->]].
    - assert (2 ^ (-1074 - (ex + ey)) <= 2 ^ 52) by (apply Z.pow_le_mono_r; lia). nia.
    - assert (2 ^ (d + (ex + ey) - 53 - (ex + ey)) <= 2 ^ (d - 1))
        by (apply Z.pow_le_mono_r; lia). lia. }
  destruct (binary_round_aux_nearest false (mx * my) (ex + ey) C1 C2)
    as (m & e & E & Dm & Cm & He & Herr). fold d in He.
  exists m, e. rewrite E, <- Pos2Z.inj_mul.
  split; [reflexivity |]. split; [exact Dm |]. split; [exact Cm |].
  split; [lia |]. split; [lia | exact Herr].
Qed.

(** A mantissa that is long enough is not shifted left before rounding. *)
Lemma binary_round_long (s : bool) (M : positive) (ez : Z) :
  ez <= Z.max (Zpos (digits2_pos M) + ez - 53) (-1074) ->
  binary_round prec emax s M ez
  = binary_round_aux prec emax s (Zpos M) ez loc_Exact.
Proof.
  intros H. unfold binary_round, shl_align, fexp, emin.
  destruct (Z.max (Zpos (digits2_pos M) + ez - prec) (3 - emax - prec) - ez)
    as [| n | n] eqn:E; try reflexivity.
  unfold prec, emax in E. lia.
Qed.

(** A sum of positive stored numbers is rounded to the nearest stored
    number, of an exponent that is not below either one. *)
Lemma add_nearest (mx my : positive) (ex ey : Z) :
  Zpos (digits2_pos mx) <= 53 -> (Zpos (digits2_pos mx) = 53 \/ ex = -1074) ->
  Zpos (digits2_pos my) <= 53 -> (Zpos (digits2_pos my) = 53 \/ ey = -1074) ->
  -1074 <= ex -> -1074 <= ey ->
  exists m e,
    add (S754_finite false mx ex) (S754_finite false my ey)
    = (if e <=? 971 then S754_finite false m e else S754_infinity false)
    /\ Zpos (digits2_pos m) <= 53
    /\ (Zpos (digits2_pos m) = 53 \/ e = -1074)
    /\ Z.max ex ey <= e
       <= Z.max (Z.max (Zpos (digits2_pos mx) + ex) (Zpos (digits2_pos my) + ey) - 52)
                (-1074) + 1
    /\ 2 * Z.abs (Zpos mx * 2 ^ (ex + 1074) + Zpos my * 2 ^ (ey + 1074)
                  - Zpos m * 2 ^ (e + 1074))
       <= 2 ^ (e + 1074).
Proof.
  intros Hx Cx Hy Cy Lx Ly.
  pose proof (digits2_bounds mx) as Bx. pose proof (digits2_bounds my) as By.
  set (dx := Zpos (digits2_pos mx)) in *. set (dy := Zpos (digits2_pos my)) in *.
  assert (H1x : 1 <= dx) by (unfold dx; lia). assert (H1y : 1 <= dy) by (unfold dy; lia).
  unfold add, SFadd. cbn [cond_Zopp].
  set (ez := Z.min ex ey).
  pose proof (shl_align_fst mx ex ez ltac:(lia)) as Fx.
  pose proof (shl_align_fst my ey ez ltac:(lia)) as Fy.
  set (a := fst (shl_align mx ex ez)) in *.
  set (b := fst (shl_align my ey ez)) in *.
  cbn [Z.add binary_normalize].
  pose proof (pow2_pos (ex - ez) ltac:(lia)) as Px.
  pose proof (pow2_pos (ey - ez) ltac:(lia)) as Py.
  pose proof (digits2_bounds (a + b)) as B. rewrite Pos2Z.inj_add in B.
  set (d := Zpos (digits2_pos (a + b))) in *.
  (* each operand, shifted, is part of the sum *)
  assert (Gx : dx + (ex - ez) <= d).
  { apply digits2_ge. rewrite Pos2Z.inj_add, Fx.
    replace (dx + (ex - ez) - 1) with ((dx - 1) + (ex - ez)) by lia.
    rewrite Z.pow_add_r by lia. nia. }
  assert (Gy : dy + (ey - ez) <= d).
  { apply digits2_ge. rewrite Pos2Z.inj_add, Fy.
    replace (dy + (ey - ez) - 1) with ((dy - 1) + (ey - ez)) by lia.
    rewrite Z.pow_add_r by lia. nia. }
  set (top := Z.max (dx + ex) (dy + ey)).
  assert (U : d <= top - ez + 1).
  { apply digits2_le. rewrite Pos2Z.inj_add, Fx, Fy.
    assert (Tx : 2 ^ dx * 2 ^ (ex - ez) <= 2 ^ (top - ez))
      by (rewrite <- Z.pow_add_r by lia; apply Z.pow_le_mono_r; lia).
    assert (Ty : 2 ^ dy * 2 ^ (ey - ez) <= 2 ^ (top - ez))
      by (rewrite <- Z.pow_add_r by lia; apply Z.pow_le_mono_r; lia).
    rewrite Z.pow_add_r by lia. change (2 ^ 1) with 2. nia. }
  assert (C1 : ez <= Z.max (d + ez - 53) (-1074)) by lia.
  assert (C2 : 2 ^ (Z.max (d + ez - 53) (-1074) - ez) <= Zpos (a + b)).
  { rewrite Pos2Z.inj_add.
    destruct (Z.max_spec (d + ez - 53) (-1074)) as [[Hlt Hmax] | [Hge Hmax]];
      rewrite Hmax.
    - replace (-1074 - ez) with 0 by lia. cbn. lia.
    - assert (2 ^ (d + ez - 53 - ez) <= 2 ^ (d - 1))
        by (apply Z.pow_le_mono_r; lia). lia. }
  rewrite binary_round_long by (fold d; exact C1).
  destruct (binary_round_aux_nearest false (a + b) ez C1 C2)
    as (m & e & E & Dm & Cm & He & Herr). fold d in He.
  exists m, e. rewrite E. split; [reflexivity |]. split; [exact Dm |].
  split; [exact Cm |]. split; [lia |].
  rewrite Pos2Z.inj_add, Fx, Fy in Herr.
  pose proof (pow2_pos (ez + 1074) ltac:(lia)) as Pz.
  replace (2 ^ (ex + 1074)) with (2 ^ (ex - ez) * 2 ^ (ez + 1074))
    by (rewrite <- Z.pow_add_r by lia; f_equal; lia).
  replace (2 ^ (ey + 1074)) with (2 ^ (ey - ez) * 2 ^ (ez + 1074))
    by (rewrite <- Z.pow_add_r by lia; f_equal; lia).
  replace (2 ^ (e + 1074)) with (2 ^ (e - ez) * 2 ^ (ez + 1074))
    by (rewrite <- Z.pow_add_r by lia; f_equal; lia).
  replace (Zpos mx * (2 ^ (ex - ez) * 2 ^ (ez + 1074))
           + Zpos my * (2 ^ (ey - ez) * 2 ^ (ez + 1074))
           - Zpos m * (2 ^ (e - ez) * 2 ^ (ez + 1074)))
    with ((Zpos mx * 2 ^ (ex - ez) + Zpos my * 2 ^ (ey - ez)
           - Zpos m * 2 ^ (e - ez)) * 2 ^ (ez + 1074)) by ring.
  rewrite Z.abs_mul, (Z.abs_eq (2 ^ (ez + 1074))) by lia.
  rewrite Z.mul_assoc. apply Z.mul_le_mono_nonneg_r; [lia | exact Herr].
Qed.

(** A counted quantity is a full mantissa that stands for its integer. *)
Lemma counted_stores (q : number) :
  counted MAX_EXACT q = true ->
  exists n mq eq,
    q = S754_finite false mq eq /\ to_Z q = Some n /\ 1 <= n <= 2 ^ 53
    /\ stores n mq eq.
Proof.
  intros H. apply counted_spec in H as (n & Hn & Ht & Hq).
  change MAX_EXACT with (2 ^ 53) in Hn.
  destruct (stores_exists n Hn) as (mq & eq & St).
  exists n, mq, eq. rewrite <- (of_Z_stores n mq eq) by (auto; lia). auto.
Qed.

(** One line: unit price times quantity, rounded once. *)
Lemma within_mul (p q : number) :
  below 971 p = true ->
  counted MAX_EXACT q = true ->
  exists n, to_Z q = Some n /\ within 1 (value p * n) (mul p q).
Proof.
  intros Hp Hq.
  destruct (counted_stores q Hq) as (n & mq & eq & -> & Ht & Hn & (Dq & Heq & Sq)).
  exists n. split; [exact Ht |].
  apply below_spec in Hp as [[s ->] | (mx & ex & -> & Dx & Hex & Cx & _)];
    [cbn; lia |].
  destruct (mul_nearest mx mq ex eq Dx ltac:(lia) Dq ltac:(lia))
    as (m & e & E & Dm & Cm & He & He' & Herr).
  rewrite E. destruct (Z.leb_spec e 971) as [Le | Gt]; [| exact I].
  cbn [within value ulp]. split.
  - apply stored_spec. exists m, e. split; [reflexivity |]. lia.
  - pose proof (pow2_pos (ex + eq + 1126) ltac:(lia)) as Pc.
    pose proof (pow2_pos 52 ltac:(lia)) as P52.
    pose proof (pow2_pos (e + 1074) ltac:(lia)) as Pe.
    assert (E1 : Zpos mx * Zpos mq * 2 ^ (ex + eq + 1126)
                 = Zpos mx * 2 ^ (ex + 1074) * n * 2 ^ 52).
    { replace (ex + eq + 1126) with ((ex + 1074) + (eq + 52)) by lia.
      rewrite Z.pow_add_r by lia.
      replace (Zpos mx * Zpos mq * (2 ^ (ex + 1074) * 2 ^ (eq + 52)))
        with (Zpos mx * 2 ^ (ex + 1074) * (Zpos mq * 2 ^ (eq + 52))) by ring.
      rewrite Sq. ring. }
    assert (E2 : 2 ^ (e - (ex + eq)) * 2 ^ (ex + eq + 1126) = 2 ^ (e + 1074) * 2 ^ 52).
    { rewrite <- !Z.pow_add_r by lia. f_equal. lia. }
    apply (Z.mul_le_mono_nonneg_r _ _ (2 ^ (ex + eq + 1126))) in Herr; [| lia].
    rewrite E2 in Herr.
    rewrite <- Z.mul_assoc, <- (Z.abs_eq (2 ^ (ex + eq + 1126))) in Herr at 1 by lia.
    rewrite <- Z.abs_mul, Z.mul_sub_distr_r, E1 in Herr.
    rewrite <- (Z.mul_assoc (Zpos m)), E2 in Herr.
    replace (Zpos mx * 2 ^ (ex + 1074) * n * 2 ^ 52 - Zpos m * (2 ^ (e + 1074) * 2 ^ 52))
      with ((Zpos mx * 2 ^ (ex + 1074) * n - Zpos m * 2 ^ (e + 1074)) * 2 ^ 52)
      in Herr by ring.
    rewrite Z.abs_mul, (Z.abs_eq (2 ^ 52)), Z.mul_assoc in Herr by lia.
    apply Z.mul_le_mono_pos_r in Herr; [| lia].
    rewrite Z.mul_1_l, <- Z.abs_opp.
    replace (- (Zpos m * 2 ^ (e + 1074) - Zpos mx * 2 ^ (ex + 1074) * n))
      with (Zpos mx * 2 ^ (ex + 1074) * n - Zpos m * 2 ^ (e + 1074)) by ring.
    exact Herr.
Qed.

(** Adding two amounts: their roundings, and one more. *)
Lemma within_add (h g s a : Z) (acc term : number) :
  0 <= h -> 0 <= g -> within h s acc -> within g a term ->
  within (h + g + 1) (s + a) (add acc term).
Proof.
  intros Hh Hg Hacc Hterm.
  destruct acc as [sx | [|] | | [|] mx ex]; cbn [within] in Hacc; try contradiction;
    destruct term as [sy | [|] | | [|] my ey]; cbn [within] in Hterm; try contradiction;
    try exact I; try (destruct sx; exact I).
  - (* 0 + 0 *) subst. destruct sx, sy; cbn; lia.
  - (* 0 + term *)
    destruct Hterm as (Nt & Et).
    replace (add (S754_zero sx) (S754_finite false my ey))
      with (S754_finite false my ey) by (destruct sx; reflexivity).
    cbn [within]. split; [exact Nt |]. subst s. cbn [value ulp] in *.
    apply stored_spec in Nt as (m & e & [= <- <-] & _ & He & _).
    pose proof (pow2_pos (ey + 1074) ltac:(lia)).
    replace (0 + a) with a by lia. nia.
  - (* sum + 0 *)
    destruct Hacc as (Na & Ea). subst a.
    change (add (S754_finite false mx ex) (S754_zero sy))
      with (S754_finite false mx ex).
    cbn [within]. split; [exact Na |]. cbn [value ulp] in *.
    apply stored_spec in Na as (m & e & [= <- <-] & _ & He & _).
    pose proof (pow2_pos (ex + 1074) ltac:(lia)).
    replace (s + 0) with s by lia. nia.
  - (* sum + term *)
    destruct Hacc as (Na & Ea). destruct Hterm as (Nt & Et).
    apply stored_spec in Na as (m1 & e1 & [= <- <-] & Dx & Hex & Cx).
    apply stored_spec in Nt as (m2 & e2 & [= <- <-] & Dy & Hey & Cy).
    destruct (add_nearest mx my ex ey Dx Cx Dy Cy ltac:(lia) ltac:(lia))
      as (m & e & E & Dm & Cm & He & Herr).
    rewrite E. destruct (Z.leb_spec e 971) as [Le | Gt]; [| exact I].
    cbn [within value ulp] in *. split.
    + apply stored_spec. exists m, e. split; [reflexivity |]. lia.
    + assert (Ux : 2 ^ (ex + 1074) <= 2 ^ (e + 1074)) by (apply Z.pow_le_mono_r; lia).
      assert (Uy : 2 ^ (ey + 1074) <= 2 ^ (e + 1074)) by (apply Z.pow_le_mono_r; lia).
      assert (Hx : h * 2 ^ (ex + 1074) <= h * 2 ^ (e + 1074))
        by (apply Z.mul_le_mono_nonneg_l; lia).
      assert (Hy : g * 2 ^ (ey + 1074) <= g * 2 ^ (e + 1074))
        by (apply Z.mul_le_mono_nonneg_l; lia).
      lia.
Qed.

(** A finite amount stands for itself. *)
Lemma within_self (x : number) :
  below 971 x = true -> within 0 (value x) x.
Proof.
  intros H. apply below_spec in H as [[s ->] | (m & e & -> & H1 & H2 & H3 & _)];
    [reflexivity |].
  cbn [within]. split; [apply stored_spec; exists m, e; auto |].
  rewrite Z.sub_diag. cbn. lia.
Qed.

(** The reduce of [subtotal], from any running sum. *)
Lemma within_fold (items : list item) :
  priced items -> quantities_counted items ->
  forall (acc : number) (h s : Z),
    0 <= h -> within h s acc ->
    within (h + 2 * Z.of_nat (List.length items)) (s + exact_subtotal items)
           (fold_left (fun sum it => add sum (mul (price it) (quantity it)))
                      items acc).
Proof.
  induction items as [| it items IH]; intros Hp Hc acc h s Hh Hacc.
  - cbn [fold_left List.length exact_subtotal fold_right].
    replace (h + 2 * Z.of_nat 0) with h by lia. replace (s + 0) with s by lia.
    exact Hacc.
  - inversion Hp as [| ? ? Hp1 Hp2]; subst. inversion Hc as [| ? ? Hc1 Hc2]; subst.
    cbn [fold_left List.length exact_subtotal fold_right].
    destruct (within_mul (price it) (quantity it) Hp1 Hc1) as (n & Hn & Hm).
    fold (exact_subtotal items).
    replace (h + 2 * Z.of_nat (S (List.length items)))
      with ((h + 2) + 2 * Z.of_nat (List.length items)) by lia.
    replace (s + (value (price it) * pieces it + exact_subtotal items))
      with ((s + value (price it) * n) + exact_subtotal items)
      by (unfold pieces; rewrite Hn; ring).
    apply IH; [assumption | assumption | lia |].
    replace (h + 2) with (h + 1 + 1) by lia. apply within_add; (assumption || lia).
Qed.

(** What [within] says of a finite result. *)
Lemma within_finite (h s : Z) (x : number) :
  within h s x -> isFinite x = true ->
  2 * Z.abs (value x - s) <= h * ulp x.
Proof.
  destruct x as [sx | [|] | | [|] m e]; cbn [within isFinite]; try contradiction;
    try discriminate.
  - intros -> _. cbn. lia.
  - intros [_ H] _. exact H.
Qed.

Lemma within_subtotal (items : list item) :
  priced items -> quantities_counted items ->
  within (2 * Z.of_nat (List.length items)) (exact_subtotal items) (subtotal items).
Proof.
  intros Hp Hc.
  apply (within_fold items Hp Hc (of_Z 0) 0 0); [lia | reflexivity].
Qed.

Lemma within_total (items : list item) :
  priced items -> quantities_counted items ->
  within (2 * Z.of_nat (List.length items) + 1)
         (exact_subtotal items + value SHIPPING_COST) (total items).
Proof.
  intros Hp Hc. unfold total.
  replace (2 * Z.of_nat (List.length items) + 1)
    with (2 * Z.of_nat (List.length items) + 0 + 1) by lia.
  apply within_add; [lia | lia | apply within_subtotal; assumption |].
  apply within_self. reflexivity.
Qed.

(** An infinite subtotal gives an infinite total. *)
Lemma subtotal_finite (items : list item) :
  priced items -> quantities_counted items ->
  isFinite (total items) = true -> below 971 (subtotal items) = true.
Proof.
  intros Hp Hc. pose proof (within_subtotal items Hp Hc) as H. unfold total.
  destruct (subtotal items) as [sx | [|] | | [|] m e]; cbn [within] in H;
    try contradiction; try discriminate; [reflexivity |].
  intros _. destruct H as [H _].
  apply stored_spec in H as (m' & e' & [= <- <-] & H1 & H2 & H3).
  apply below_spec. right. exists m, e. split; [reflexivity |]. lia.
Qed.

(** The total is the subtotal plus the shipping cost, rounded once. *)
Lemma total_nearest (items : list item) :
  below 971 (subtotal items) = true ->
  within 1 (value (subtotal items) + value SHIPPING_COST) (total items).
Proof.
  intros H. unfold total. change 1 with (0 + 0 + 1).
  apply within_add; [lia | lia | apply within_self, H | apply within_self; reflexivity].
Qed.

(** ** How large the sums can get *)






End RoundFacts.

(** ** Numbers written with two decimals *)

Module FixedFacts.
Import JS Bag Spec.

Local Open Scope string_scope.
Local Open Scope Z_scope.




















End FixedFacts.

(** ** The cart *)

Module BagFacts.
Import JS Bag Spec JSFacts.

Local Open Scope string_scope.
Local Open Scope Z_scope.


Lemma with_quantity_same (it : item) : with_quantity it (quantity it) = it.
Proof. destruct it; reflexivity. Qed.

Lemma with_quantity_back (it : item) (q : number) :
  with_quantity (with_quantity it q) (quantity it) = it.
Proof. destruct it; reflexivity. Qed.

Lemma map_unchanged {A : Type} (f : A -> A) (l : list A) :
  (forall x, In x l -> f x = x) -> map f l = l.
Proof.
  induction l as [| x l IH]; intros H; cbn; [reflexivity |].
  rewrite (H x) by (left; reflexivity).
  rewrite IH by (intros y Hy; apply H; right; exact Hy). reflexivity.
Qed.

Lemma incrementQuantity_nth (i : number) (items : list item) (k : nat) :
  nth_error (incrementQuantity i items) k
  = option_map (fun it => if strict_eq (id it) i
                          then with_quantity it (add (quantity it) (of_Z 1))
                          else it)
               (nth_error items k).
Proof. unfold incrementQuantity. apply nth_error_map. Qed.

Lemma decrementQuantity_nth (i : number) (items : list item) (k : nat) :
  nth_error (decrementQuantity i items) k
  = option_map (fun it => if strict_eq (id it) i && gt (quantity it) (of_Z 1)
                          then with_quantity it (sub (quantity it) (of_Z 1))
                          else it)
               (nth_error items k).
Proof. unfold decrementQuantity. apply nth_error_map. Qed.

Lemma Sigma_ext (n : nat) (f g : nat -> number) :
  (forall k, (k < n)%nat -> f k = g k) -> Sigma n f = Sigma n g.
Proof.
  induction n as [| n IH]; intros H; cbn [Sigma]; [reflexivity |].
  rewrite IH by (intros k Hk; apply H; lia). rewrite H by lia. reflexivity.
Qed.

Lemma fold_left_Sigma (f : item -> number) (items : list item) :
  fold_left (fun sum it => add sum (f it)) items (of_Z 0)
  = Sigma (List.length items) (fun k => f (line items k)).
Proof.
  induction items as [| it items IH] using rev_ind; [reflexivity |].
  rewrite fold_left_app, length_app, Nat.add_comm. cbn [fold_left List.length Nat.add Sigma].
  rewrite IH. f_equal.
  - apply Sigma_ext. intros k Hk. unfold line. rewrite app_nth1 by exact Hk. reflexivity.
  - unfold line. rewrite app_nth2, Nat.sub_diag by lia. reflexivity.
Qed.

Lemma counted_weaken (b b' : Z) (q : number) :
  b <= b' -> counted b q = true -> counted b' q = true.
Proof.
  intros Hb H. apply counted_spec in H as (n & Hn & Ht & Hq).
  apply counted_spec. exists n. repeat split; auto; lia.
Qed.

Lemma counted_of_Z (b n : Z) :
  1 <= n <= b -> b <= 2 ^ 53 -> counted b (of_Z n) = true.
Proof.
  intros Hn Hb. apply counted_spec. exists n.
  repeat split; try lia. apply to_Z_of_Z. lia.
Qed.

Lemma add_one_top : add (of_Z (2 ^ 53)) (of_Z 1) = of_Z (2 ^ 53).
Proof. vm_compute. reflexivity. Qed.

(** The quantity that [incrementQuantity] writes stays a counted integer. *)
Lemma counted_increment (q : number) :
  counted MAX_EXACT q = true -> counted MAX_EXACT (add q (of_Z 1)) = true.
Proof.
  intros H. apply counted_spec in H as (n & Hn & _ & ->). unfold MAX_EXACT in *.
  destruct (Z.eq_dec n (2 ^ 53)) as [-> | NE].
  - rewrite add_one_top. apply counted_of_Z; lia.
  - rewrite add_exact by lia. apply counted_of_Z; lia.
Qed.

Lemma counted_decrement (q : number) :
  counted MAX_EXACT q = true -> gt q (of_Z 1) = true ->
  counted MAX_EXACT (sub q (of_Z 1)) = true.
Proof.
  intros H G. apply counted_spec in H as (n & Hn & _ & ->). unfold MAX_EXACT in *.
  rewrite gt_one in G by lia. apply Z.ltb_lt in G.
  rewrite sub_exact by lia. apply counted_of_Z; lia.
Qed.


Lemma incrementQuantity_counted (i : number) (items : list item) :
  quantities_counted items -> quantities_counted (incrementQuantity i items).
Proof.
  unfold quantities_counted, incrementQuantity. intros H.
  apply Forall_map. eapply Forall_impl; [| exact H].
  intros it Hit. cbn beta. destruct (strict_eq (id it) i); [| exact Hit].
  apply counted_increment, Hit.
Qed.

Lemma decrementQuantity_counted (i : number) (items : list item) :
  quantities_counted items -> quantities_counted (decrementQuantity i items).
Proof.
  unfold quantities_counted, decrementQuantity. intros H.
  apply Forall_map. eapply Forall_impl; [| exact H].
  intros it Hit. cbn beta.
  destruct (strict_eq (id it) i); cbn [andb]; [| exact Hit].
  destruct (gt (quantity it) (of_Z 1)) eqn:G; [| exact Hit].
  apply counted_decrement; assumption.
Qed.

End BagFacts.

(** ** The screen *)

Module ScreenFacts.
Import JS Bag Spec Screen JSFacts RoundFacts BagFacts.

Local Open Scope string_scope.
Local Open Scope Z_scope.


Lemma render_cartItems (w : screen) : cartItems (render w) = cartItems w.
Proof. reflexivity. Qed.

Lemma render_alerts (w : screen) : alerts (render w) = alerts w.
Proof. reflexivity. Qed.

Lemma render_payments (w : screen) : payments (render w) = payments w.
Proof. reflexivity. Qed.

(** A render after a handler that left the state alone changes nothing. *)
Lemma render_idle (w : screen) : rendered w -> render w = w.
Proof.
  unfold rendered, render, useMemo. intros H. destruct w as [c r m a ps l].
  cbn in *. subst m. cbn [fst]. rewrite Nat.eqb_refl. reflexivity.
Qed.

(** A render after [setCartItems] recomputes the summary. *)
Lemma render_setCartItems (f : list item -> list item) (w : screen) :
  rendered w ->
  render (setCartItems f w)
  = {| cartItems := f (cartItems w); cartItems_ref := S (cartItems_ref w);
       memo := (S (cartItems_ref w), summary (f (cartItems w)));
       alerts := alerts w; payments := payments w; console := console w |}.
Proof.
  unfold rendered, render, useMemo, setCartItems. intros H. cbn. rewrite H. cbn [fst].
  replace (Nat.eqb (cartItems_ref w) (S (cartItems_ref w))) with false; [reflexivity |].
  symmetry. apply Nat.eqb_neq. lia.
Qed.

Lemma rendered_render_same (w w1 : screen) :
  rendered w -> cartItems w1 = cartItems w -> cartItems_ref w1 = cartItems_ref w ->
  memo w1 = memo w -> rendered (render w1).
Proof.
  unfold rendered, render, useMemo. intros H Hc Hr Hm. cbn.
  rewrite Hm, H, Hr, Hc. cbn [fst]. rewrite Nat.eqb_refl. reflexivity.
Qed.

Lemma rendered_render_set (f : list item -> list item) (w w1 : screen) :
  rendered w -> cartItems_ref w1 = cartItems_ref w -> memo w1 = memo w ->
  rendered (render (setCartItems f w1)).
Proof.
  unfold rendered, render, useMemo, setCartItems. intros H Hr Hm. cbn.
  rewrite Hm, H, Hr. cbn [fst].
  replace (Nat.eqb (cartItems_ref w) (S (cartItems_ref w))) with false; [reflexivity |].
  symmetry. apply Nat.eqb_neq. lia.
Qed.

(** After every event the summary on display is that of the cart in state. *)
Lemma rendered_step (p : platform) (w w' : screen) (ev : event) :
  rendered w -> step p w ev = Some w' -> rendered w'.
Proof.
  intros H. unfold step.
  destruct ev as [i | i | | a b | k r | k e | k]; cbn [handle option_map].
  - intros [= <-]. apply (rendered_render_set _ w w); auto.
  - intros [= <-]. apply (rendered_render_set _ w w); auto.
  - intros [= <-]. unfold handlePayPalPayment, Alert_alert.
    destruct (String.eqb (OS p) "web"); [| destruct (PayPal p)];
      apply (rendered_render_same w); auto.
  - destruct (nth_error (alerts w) a) as [dlg |]; [| discriminate].
    destruct (nth_error (buttons dlg) b) as [btn |]; [| discriminate].
    cbn [option_map]. intros [= <-].
    destruct (onPress btn) as [[] |].
    + apply (rendered_render_set _ w); auto.
    + apply (rendered_render_same w); auto.
  - destruct (nth_error (payments w) k) as [[d []] |]; try discriminate.
    cbn [option_map]. intros [= <-]. unfold on_fulfilled, Alert_alert.
    destruct (String.eqb (OS p) "web"); apply (rendered_render_same w); auto.
  - destruct (nth_error (payments w) k) as [[d []] |]; try discriminate.
    cbn [option_map]. intros [= <-]. unfold on_rejected, Alert_alert.
    destruct (String.eqb (OS p) "web"); apply (rendered_render_same w); auto.
  - destruct (nth_error (payments w) k) as [[d []] |]; try discriminate.
    cbn [option_map]. intros [= <-].
    unfold on_fulfilled_without_response, on_rejected, Alert_alert.
    destruct (String.eqb (OS p) "web"); apply (rendered_render_same w); auto.
Qed.

Lemma rendered_run (p : platform) (evs : list event) (w w' : screen) :
  rendered w -> run p w evs = Some w' -> rendered w'.
Proof.
  revert w. induction evs as [| ev evs IH]; intros w H; cbn [run].
  - intros [= <-]. exact H.
  - destruct (step p w ev) as [w1 |] eqn:E; [| discriminate].
    apply IH. eapply rendered_step; eauto.
Qed.

(** The cart after an event: untouched, or rewritten by one of the three
    updaters. *)
Lemma step_cartItems (p : platform) (w w' : screen) (ev : event) :
  step p w ev = Some w' ->
  cartItems w' = cartItems w
  \/ (exists i, cartItems w' = incrementQuantity i (cartItems w))
  \/ (exists i, cartItems w' = decrementQuantity i (cartItems w))
  \/ cartItems w' = [].
Proof.
  unfold step.
  destruct ev as [i | i | | a b | k r | k e | k]; cbn [handle option_map].
  - intros [= <-]. right; left. exists i. reflexivity.
  - intros [= <-]. right; right; left. exists i. reflexivity.
  - intros [= <-]. left. unfold handlePayPalPayment, Alert_alert.
    destruct (String.eqb (OS p) "web"); [| destruct (PayPal p)]; reflexivity.
  - destruct (nth_error (alerts w) a) as [dlg |]; [| discriminate].
    destruct (nth_error (buttons dlg) b) as [btn |]; [| discriminate].
    cbn [option_map]. intros [= <-].
    destruct (onPress btn) as [[] |]; [right; right; right | left]; reflexivity.
  - destruct (nth_error (payments w) k) as [[d []] |]; try discriminate.
    cbn [option_map]. intros [= <-]. left. unfold on_fulfilled, Alert_alert.
    destruct (String.eqb (OS p) "web"); reflexivity.
  - destruct (nth_error (payments w) k) as [[d []] |]; try discriminate.
    cbn [option_map]. intros [= <-]. left. unfold on_rejected, Alert_alert.
    destruct (String.eqb (OS p) "web"); reflexivity.
  - destruct (nth_error (payments w) k) as [[d []] |]; try discriminate.
    cbn [option_map]. intros [= <-]. left.
    unfold on_fulfilled_without_response, on_rejected, Alert_alert.
    destruct (String.eqb (OS p) "web"); reflexivity.
Qed.

Lemma counted_step (p : platform) (w w' : screen) (ev : event) :
  quantities_counted (cartItems w) -> step p w ev = Some w' ->
  quantities_counted (cartItems w').
Proof.
  intros H E. apply step_cartItems in E as [-> | [[i ->] | [[i ->] | ->]]].
  - exact H.
  - apply incrementQuantity_counted, H.
  - apply decrementQuantity_counted, H.
  - constructor.
Qed.

Lemma counted_run (p : platform) (evs : list event) (w w' : screen) :
  quantities_counted (cartItems w) -> run p w evs = Some w' ->
  quantities_counted (cartItems w').
Proof.
  revert w. induction evs as [| ev evs IH]; intros w H; cbn [run].
  - intros [= <-]. exact H.
  - destruct (step p w ev) as [w1 |] eqn:E; [| discriminate].
    apply IH. eapply counted_step; eauto.
Qed.






Lemma add_zero_l (n : Z) : 1 <= n <= 2 ^ 53 -> add (of_Z 0) (of_Z n) = of_Z n.
Proof.
  intros Hn. destruct (stores_exists n Hn) as (q & e & Sq).
  rewrite (of_Z_stores n q e) by (auto; lia). reflexivity.
Qed.

Lemma quantity_sum_app (l1 l2 : list item) :
  quantity_sum (l1 ++ l2) = quantity_sum l1 + quantity_sum l2.
Proof.
  induction l1 as [| it l1 IH]; cbn; [reflexivity |].
  unfold quantity_sum in *. cbn [fold_right app]. rewrite IH.
  destruct (to_Z (quantity it)); lia.
Qed.

Lemma quantity_sum_counted (items : list item) :
  quantities_counted items -> (Z.of_nat (List.length items) <= quantity_sum items).
Proof.
  induction 1 as [| it items Hit _ IH]; cbn; [lia |].
  apply counted_spec in Hit as (n & Hn & Ht & _).
  unfold quantity_sum in *. cbn [fold_right]. rewrite Ht. lia.
Qed.

(** The item count is the true integer sum as long as that is at most 2^53. *)
Lemma totalItems_exact (items : list item) :
  quantities_counted items -> quantity_sum items <= 2 ^ 53 ->
  Bag.totalItems items = of_Z (quantity_sum items).
Proof.
  unfold Bag.totalItems.
  induction items as [| it items IH] using rev_ind; intros Hc Hs; [reflexivity |].
  apply Forall_app in Hc as [Hc Hit]. inversion Hit as [| ? ? Hq _]; subst.
  apply counted_spec in Hq as (n & Hn & Ht & Hq).
  pose proof (quantity_sum_counted items Hc) as Hlen.
  rewrite quantity_sum_app in *.
  assert (E : quantity_sum [it] = n) by (unfold quantity_sum; cbn; rewrite Ht; lia).
  rewrite E in *.
  rewrite fold_left_app. cbn [fold_left]. rewrite IH by (auto; lia). rewrite Hq.
  destruct items as [| it0 items0].
  - cbn. apply add_zero_l. unfold MAX_EXACT in Hn. lia.
  - cbn [List.length] in Hlen. apply add_exact; lia.
Qed.

(** How the cart changes over events leaves the unit prices alone. *)
Lemma prices_step (P : number -> Prop) (p : platform) (w w' : screen) (ev : event) :
  Forall (fun it => P (price it)) (cartItems w) -> step p w ev = Some w' ->
  Forall (fun it => P (price it)) (cartItems w').
Proof.
  intros H E. apply step_cartItems in E as [-> | [[i ->] | [[i ->] | ->]]].
  - exact H.
  - apply Forall_map. eapply Forall_impl; [| exact H].
    intros it Hit. cbn beta. destruct (strict_eq (id it) i); exact Hit.
  - apply Forall_map. eapply Forall_impl; [| exact H].
    intros it Hit. cbn beta.
    destruct (strict_eq (id it) i && gt (quantity it) (of_Z 1)); exact Hit.
  - constructor.
Qed.

Lemma prices_run (P : number -> Prop) (p : platform) (evs : list event) (w w' : screen) :
  Forall (fun it => P (price it)) (cartItems w) -> run p w evs = Some w' ->
  Forall (fun it => P (price it)) (cartItems w').
Proof.
  revert w. induction evs as [| ev evs IH]; intros w H; cbn [run].
  - intros [= <-]. exact H.
  - destruct (step p w ev) as [w1 |] eqn:E; [| discriminate].
    apply IH. eapply prices_step; eauto.
Qed.


(** Claim C1 as stated fails.  Two presses on the minus of the third line
    of the seed cart lead to the quantities 2, 1, 1.  The sum of price
    times quantity is 45.99 * 2 + 52.99 + 38.95 = 183.92; the subtotal on
    display is another number, 183.92000000000002, one unit in the last
    place above the number 183.92, and it is not the exact sum of the
    stored prices times the quantities either. *)
Lemma subtotal_is_rounded :
  exists w,
    run ios mount [press_decrement (of_Z 3); press_decrement (of_Z 3)] = Some w
    /\ map (fun it => (price it, quantity it)) (cartItems w)
       = [ (decimal 4599 2, of_Z 2); (decimal 5299 2, of_Z 1);
           (decimal 3895 2, of_Z 1) ]
    /\ 4599 * 2 + 5299 * 1 + 3895 * 1 = 18392
    /\ Screen.subtotal w <> decimal 18392 2
    /\ toString (Screen.subtotal w) = "183.92000000000002"
    /\ toString (decimal 18392 2) = "183.92"
    /\ value (Screen.subtotal w) - exact_subtotal (cartItems w)
       = 2 ^ 1027.
Proof.
  eexists. split; [vm_compute; reflexivity |].
  split; [vm_compute; reflexivity |]. split; [reflexivity |].
  split; [vm_compute; discriminate |].
  split; [vm_compute; reflexivity |]. split; vm_compute; reflexivity.
Qed.

(** Claim C1, amended.  Take any cart whose unit prices are finite numbers
    that are not negative and whose quantities are integers from 1 to
    2^53.  Whatever happens to the screen (quantity presses, checkouts,
    dialogs dismissed, the cart cleared), the summary of the last render
    is that of the cart now in state, and:
    - [subtotal] is the sum of price times quantity taken in list order
      from 0, every product and every partial sum rounded to the nearest
      binary64; unless the total overflows to [Infinity], it differs from
      the exact sum by at most as many units in its last place as the cart
      has lines;
    - [total] is [subtotal] plus the shipping cost, exactly 15, rounded
      once: within half a unit in its last place of that sum, and within
      [n + 1/2] units of the exact sum plus 15;
    - [totalItems] is the sum of the quantities, exact as long as it is at
      most 2^53. *)
Theorem order_summary_is_sum (p : platform) (w w' : screen) (evs : list event) :
  rendered w -> priced (cartItems w) -> quantities_counted (cartItems w) ->
  run p w evs = Some w' ->
  let items := cartItems w' in
  let n := Z.of_nat (List.length items) in
  Screen.subtotal w'
    = Sigma (List.length items) (fun k => mul (price (line items k)) (quantity (line items k)))
  /\ Screen.totalItems w'
    = Sigma (List.length items) (fun k => quantity (line items k))
  /\ Screen.total w' = add (Screen.subtotal w') SHIPPING_COST
  /\ value SHIPPING_COST = 15 * 2 ^ 1074
  /\ (isFinite (Screen.total w') = true ->
      Z.abs (value (Screen.subtotal w') - exact_subtotal items)
      <= n * ulp (Screen.subtotal w')
      /\ 2 * Z.abs (value (Screen.total w')
                    - (value (Screen.subtotal w') + 15 * 2 ^ 1074))
         <= ulp (Screen.total w')
      /\ 2 * Z.abs (value (Screen.total w')
                    - (exact_subtotal items + 15 * 2 ^ 1074))
         <= (2 * n + 1) * ulp (Screen.total w'))
  /\ (quantity_sum items <= 2 ^ 53 ->
      to_Z (Screen.totalItems w') = Some (quantity_sum items)).
Proof.
  intros Hw Hp Hc Hrun items n.
  pose proof (rendered_run p evs w w' Hw Hrun) as R.
  pose proof (prices_run (fun x => below 971 x = true) p evs w w' Hp Hrun) as Hp'.
  fold (priced (cartItems w')) in Hp'.
  pose proof (counted_run p evs w w' Hc Hrun) as Hc'.
  fold items in Hp', Hc'.
  unfold Screen.total, Screen.subtotal, Screen.totalItems. rewrite R. cbn [fst snd summary].
  fold items.
  assert (Hs : value SHIPPING_COST = 15 * 2 ^ 1074) by (vm_compute; reflexivity).
  split; [| split; [| split; [| split; [| split]]]].
  - apply (fold_left_Sigma (fun it => mul (price it) (quantity it))).
  - apply (fold_left_Sigma quantity).
  - reflexivity.
  - exact Hs.
  - intros Hf. fold (Bag.total items) in *.
    pose proof (subtotal_finite items Hp' Hc' Hf) as Hb.
    pose proof (within_finite _ _ _ (within_subtotal items Hp' Hc')) as H1.
    pose proof (within_finite _ _ _ (total_nearest items Hb) Hf) as H2.
    pose proof (within_finite _ _ _ (within_total items Hp' Hc') Hf) as H3.
    rewrite Hs in H2, H3. fold n in H1, H3.
    split; [| split; [| exact H3]].
    + assert (Hfs : isFinite (Bag.subtotal items) = true).
      { apply below_spec in Hb as [[s ->] | (m & e & -> & _)]; reflexivity. }
      specialize (H1 Hfs). lia.
    + lia.
  - intros Hsum. rewrite totalItems_exact by assumption.
    destruct items as [| it items0] eqn:E; [reflexivity |].
    apply to_Z_of_Z. pose proof (quantity_sum_counted _ Hc'). cbn [List.length] in *. lia.
Qed.

Lemma order_summary_is_sum_witness :
  exists w',
    run ios mount [press_decrement (of_Z 3); press_decrement (of_Z 3)] = Some w'
    /\ Z.abs (value (Screen.subtotal w') - exact_subtotal (cartItems w'))
       <= 3 * ulp (Screen.subtotal w')
    /\ 2 * Z.abs (value (Screen.total w')
                  - (exact_subtotal (cartItems w') + 15 * 2 ^ 1074))
       <= 7 * ulp (Screen.total w')
    /\ to_Z (Screen.totalItems w') = Some 4.
Proof.
  eexists. split; [vm_compute; reflexivity |].
  assert (Hp : priced (cartItems mount)) by (repeat constructor).
  assert (Hc : quantities_counted (cartItems mount)) by (repeat constructor).
  destruct (order_summary_is_sum ios mount _
              [press_decrement (of_Z 3); press_decrement (of_Z 3)]
              eq_refl Hp Hc ltac:(vm_compute; reflexivity))
    as (_ & _ & _ & _ & H5 & H6).
  destruct (H5 ltac:(vm_compute; reflexivity)) as (H51 & _ & H53).
  split; [exact H51 |]. split; [exact H53 |].
  apply H6. vm_compute. discriminate.
Defined.

(** Claim C8.  The seed cart holds the prices 45.99, 52.99, 38.95 with the
    quantities 2, 1, 3, shipping is 15.00, and the summary is exactly
    [subtotal = 261.82], [total = 276.82], [totalItems = 6]: the same
    binary64 values as those literals, shown as "261.82", "276.82", "6". *)
Theorem seed_cart_summary :
  map (fun it => (price it, quantity it)) initialCartItems
    = [ (decimal 4599 2, of_Z 2); (decimal 5299 2, of_Z 1); (decimal 3895 2, of_Z 3) ]
  /\ SHIPPING_COST = decimal 1500 2
  /\ Bag.subtotal initialCartItems = decimal 26182 2
  /\ Bag.total initialCartItems = decimal 27682 2
  /\ Bag.totalItems initialCartItems = of_Z 6
  /\ (Screen.subtotal mount, Screen.total mount, Screen.totalItems mount)
     = (decimal 26182 2, decimal 27682 2, of_Z 6)
  /\ (toFixed (Screen.subtotal mount) 2, toFixed (Screen.total mount) 2,
      toString (Screen.totalItems mount)) = ("261.82", "276.82", "6").
Proof. repeat split; vm_compute; reflexivity. Qed.

(** Claim C6.  When no line of the cart has the given id, both updaters
    return the cart as it is, and on the screen both presses go through
    without a dialog, a payment or a log entry, leaving cart and summary as
    they were. *)
Theorem unknown_id_is_a_no_op (i : number) (items : list item) :
  (forall it, In it items -> strict_eq (id it) i = false) ->
  incrementQuantity i items = items
  /\ decrementQuantity i items = items
  /\ forall (p : platform) (w : screen),
       cartItems w = items -> rendered w ->
       exists w1 w2,
         step p w (press_increment i) = Some w1
         /\ step p w (press_decrement i) = Some w2
         /\ cartItems w1 = items /\ cartItems w2 = items
         /\ (Screen.subtotal w1, Screen.totalItems w1, Screen.total w1)
            = (Screen.subtotal w, Screen.totalItems w, Screen.total w)
         /\ (Screen.subtotal w2, Screen.totalItems w2, Screen.total w2)
            = (Screen.subtotal w, Screen.totalItems w, Screen.total w)
         /\ (alerts w1, payments w1, console w1) = (alerts w, payments w, console w)
         /\ (alerts w2, payments w2, console w2) = (alerts w, payments w, console w).
Proof.
  intros H.
  assert (Hi : incrementQuantity i items = items).
  { apply map_unchanged. intros it Hit. rewrite (H it Hit). reflexivity. }
  assert (Hd : decrementQuantity i items = items).
  { apply map_unchanged. intros it Hit. rewrite (H it Hit). reflexivity. }
  split; [exact Hi | split; [exact Hd |]].
  intros p w Hw R. unfold step. cbn [handle option_map].
  rewrite !render_setCartItems by exact R. rewrite Hw, Hi, Hd.
  do 2 eexists. split; [reflexivity | split; [reflexivity |]].
  unfold Screen.total, Screen.subtotal, Screen.totalItems. cbn.
  rewrite R, Hw. cbn. repeat split.
Qed.

Lemma unknown_id_is_a_no_op_witness :
  incrementQuantity (of_Z 7) initialCartItems = initialCartItems
  /\ decrementQuantity (of_Z 7) initialCartItems = initialCartItems.
Proof.
  destruct (unknown_id_is_a_no_op (of_Z 7) initialCartItems) as (H1 & H2 & _).
  - intros it [<- | [<- | [<- | []]]]; reflexivity.
  - split; assumption.
Defined.

(** Claim C5 as stated fails: it is not true that [incrementQuantity] adds
    exactly 1 to every matching quantity.  On a line whose quantity is
    2^53 the sum [quantity + 1] rounds back to 2^53. *)
Lemma increment_at_2_53_adds_nothing :
  ~ (forall (i : number) (items : list item) (k : nat) (it : item) (n : Z),
       nth_error items k = Some it -> strict_eq (id it) i = true ->
       1 <= n -> to_Z (quantity it) = Some n ->
       exists it', nth_error (incrementQuantity i items) k = Some it'
                   /\ to_Z (quantity it') = Some (n + 1)).
Proof.
  intros H.
  destruct (H (of_Z 1) crowded O _ (2 ^ 53) eq_refl eq_refl) as (it' & E & Q).
  - discriminate.
  - reflexivity.
  - vm_compute in E. injection E as <-. vm_compute in Q. discriminate.
Qed.

(** Claim C5, amended.  In a cart whose quantities are integers from 1 to
    2^53: [decrementQuantity] keeps every line, leaves a quantity of 1
    untouched and never writes a quantity below 1; [incrementQuantity]
    adds exactly 1 to a matching quantity below 2^53; and after any
    sequence of events every quantity is still an integer between 1 and
    2^53. *)
Theorem quantity_stays_counted (i : number) (items : list item) :
  quantities_counted items ->
  (* decrement keeps every line, keeps a quantity of 1, goes no lower than 1 *)
  (List.length (decrementQuantity i items) = List.length items
   /\ forall k it, nth_error items k = Some it ->
        exists it', nth_error (decrementQuantity i items) k = Some it'
          /\ with_quantity it' (quantity it) = it
          /\ (quantity it = of_Z 1 -> it' = it)
          /\ exists n, 1 <= n /\ to_Z (quantity it') = Some n)
  (* increment adds exactly 1 below 2^53 *)
  /\ (forall k it n, nth_error items k = Some it -> strict_eq (id it) i = true ->
        to_Z (quantity it) = Some n -> n < 2 ^ 53 ->
        exists it', nth_error (incrementQuantity i items) k = Some it'
          /\ with_quantity it' (quantity it) = it
          /\ to_Z (quantity it') = Some (n + 1))
  (* whatever happens to the screen, quantities stay integers from 1 up *)
  /\ (forall p w evs w', cartItems w = items -> run p w evs = Some w' ->
        Forall (fun it => exists n, 1 <= n <= 2 ^ 53 /\ to_Z (quantity it) = Some n)
               (cartItems w')).
Proof.
  intros Hc. split; [split |]; [| | split].
  - unfold decrementQuantity. apply length_map.
  - intros k it Hk. rewrite decrementQuantity_nth, Hk. cbn [option_map].
    eexists; split; [reflexivity |].
    pose proof (proj1 (Forall_forall _ _) Hc it (nth_error_In _ _ Hk)) as Hq.
    cbn beta in Hq.
    destruct (strict_eq (id it) i && gt (quantity it) (of_Z 1)) eqn:G.
    + apply andb_prop in G as [_ G]. split; [apply with_quantity_back |]. split.
      * intros E. rewrite E in G. vm_compute in G. discriminate.
      * pose proof (counted_decrement _ Hq G) as Hq'.
        apply counted_spec in Hq' as (n & Hn & Ht & _). exists n.
        cbn [quantity with_quantity]. split; [lia | exact Ht].
    + split; [apply with_quantity_same |]. split; [reflexivity |].
      apply counted_spec in Hq as (n & Hn & Ht & _). exists n. split; [lia | exact Ht].
  - intros k it n Hk Hi Ht Hn. rewrite incrementQuantity_nth, Hk. cbn [option_map].
    rewrite Hi. eexists; split; [reflexivity |]. split; [apply with_quantity_back |].
    pose proof (proj1 (Forall_forall _ _) Hc it (nth_error_In _ _ Hk)) as Hq.
    apply counted_spec in Hq as (n' & Hn' & Ht' & Hq). cbn [quantity with_quantity].
    assert (n' = n) by congruence. subst n'.
    rewrite Hq, add_exact by lia. apply to_Z_of_Z. lia.
  - intros p w evs w' Hw Hrun. subst items.
    pose proof (counted_run p evs w w' Hc Hrun) as H'.
    eapply Forall_impl; [| exact H'].
    intros it Hq. apply counted_spec in Hq as (n & Hn & Ht & _). exists n. auto.
Qed.

Lemma quantity_stays_counted_witness :
  (exists it', nth_error (decrementQuantity (of_Z 2) initialCartItems) 1 = Some it'
               /\ to_Z (quantity it') = Some 1)
  /\ (exists it', nth_error (incrementQuantity (of_Z 2) initialCartItems) 1 = Some it'
               /\ to_Z (quantity it') = Some 2).
Proof.
  destruct (quantity_stays_counted (of_Z 2) initialCartItems) as ((_ & D) & I & _).
  - repeat constructor.
  - split.
    + destruct (D 1%nat _ eq_refl) as (it' & E & _ & K & _).
      exists it'. split; [exact E |]. rewrite (K eq_refl). reflexivity.
    + destruct (I 1%nat _ 1 eq_refl eq_refl eq_refl) as (it' & E & _ & Q); [lia |].
      exists it'. split; assumption.
Defined.

(** Claim C10 as stated fails: on the cart whose line with id 1 has the
    quantity 2^53, incrementing and then decrementing id 1 does not give
    the cart back (the quantity ends at 2^53 - 1). *)
Lemma round_trip_fails_at_2_53 :
  existsb (fun it => strict_eq (id it) (of_Z 1)) crowded = true
  /\ decrementQuantity (of_Z 1) (incrementQuantity (of_Z 1) crowded) <> crowded.
Proof. split; [reflexivity |]. vm_compute. discriminate. Qed.

(** Claim C10, amended.  When every line with the given id has an integer
    quantity from 1 to 2^53 - 1, [incrementQuantity] followed by
    [decrementQuantity] on that id returns the cart exactly as it was. *)
Theorem increment_then_decrement (i : number) (items : list item) :
  Forall (fun it => strict_eq (id it) i = true ->
                    counted (MAX_EXACT - 1) (quantity it) = true) items ->
  decrementQuantity i (incrementQuantity i items) = items.
Proof.
  intros H. unfold decrementQuantity, incrementQuantity. rewrite map_map.
  apply map_unchanged. intros it Hit.
  pose proof (proj1 (Forall_forall _ _) H it Hit) as Hq. cbn beta in Hq.
  destruct (strict_eq (id it) i) eqn:E.
  - cbn [id quantity with_quantity]. rewrite E. cbn [andb].
    apply counted_spec in Hq as (n & Hn & _ & Hq); [| reflexivity].
    unfold MAX_EXACT in Hn.
    rewrite Hq, add_exact by lia. rewrite gt_one by lia.
    replace (1 <? n + 1) with true by (symmetry; apply Z.ltb_lt; lia).
    rewrite sub_exact by lia. replace (n + 1 - 1) with n by lia.
    rewrite <- Hq. apply with_quantity_back.
  - rewrite E. reflexivity.
Qed.

Lemma increment_then_decrement_witness :
  decrementQuantity (of_Z 2) (incrementQuantity (of_Z 2) initialCartItems)
  = initialCartItems.
Proof.
  apply (increment_then_decrement (of_Z 2) initialCartItems).
  repeat constructor.
Defined.

Lemma not_web (p : platform) : OS p <> "web" -> String.eqb (OS p) "web" = false.
Proof. intros H. apply String.eqb_neq. exact H. Qed.

Lemma nth_error_last {A : Type} (l : list A) (x : A) :
  nth_error (l ++ [x]) (List.length l) = Some x.
Proof. rewrite nth_error_app2, Nat.sub_diag by lia. reflexivity. Qed.

Lemma remove_nth_last {A : Type} (l : list A) (x : A) :
  remove_nth (List.length l) (l ++ [x]) = l.
Proof. induction l as [| y l IH]; cbn; [reflexivity | rewrite IH; reflexivity]. Qed.

Lemma press_only_button (p : platform) (w : screen) (a : nat) (dlg : alert)
    (btn : button) :
  nth_error (alerts w) a = Some dlg -> buttons dlg = [btn] ->
  forall b w', step p w (press_alert_button a b) = Some w' ->
    b = O
    /\ w' = render (match onPress btn with
                    | Some c => run_callback c (close_alert a w)
                    | None => close_alert a w
                    end).
Proof.
  intros Ha Hb b w'. unfold step. cbn [handle]. rewrite Ha, Hb.
  destruct b as [| b]; cbn [nth_error option_map].
  - intros [= <-]. split; reflexivity.
  - destruct b; discriminate.
Qed.



Lemma Alert_alert_web (p : platform) (a : alert) (w : screen) :
  OS p = "web" -> Alert_alert p a w = w.
Proof. intros H. unfold Alert_alert. rewrite H. reflexivity. Qed.

Lemma step_checkout_web (p : platform) (w : screen) :
  OS p = "web" -> rendered w -> step p w press_checkout = Some w.
Proof.
  intros Hweb R. unfold step. cbn [handle option_map]. unfold handlePayPalPayment.
  unfold Alert_alert. rewrite Hweb. cbn [String.eqb Ascii.eqb Bool.eqb].
  rewrite render_idle; [reflexivity | exact R].
Qed.

Lemma step_checkout_unavailable (p : platform) (w : screen) :
  OS p <> "web" -> required p = None -> rendered w ->
  step p w press_checkout = Some (display unavailable_alert w).
Proof.
  intros Hos Hreq R. unfold step. cbn [handle option_map].
  unfold handlePayPalPayment, PayPal, Alert_alert.
  rewrite (not_web p Hos), Hreq. cbn [negb].
  rewrite render_idle; [reflexivity | exact R].
Qed.

Lemma step_checkout_live (p : platform) (w : screen) :
  OS p <> "web" -> required p = Some react_native_paypal -> rendered w ->
  step p w press_checkout = Some (payWithPayPal (make_paymentData w) w).
Proof.
  intros Hos Hreq R. unfold step. cbn [handle option_map].
  unfold handlePayPalPayment, PayPal. rewrite (not_web p Hos), Hreq. cbn [negb].
  rewrite render_idle; [reflexivity | exact R].
Qed.

Lemma close_last_alert (a : alert) (w : screen) :
  close_alert (List.length (alerts w)) (display a w) = w.
Proof.
  destruct w as [c r m al ps l]. unfold close_alert, display. cbn.
  rewrite remove_nth_last. reflexivity.
Qed.

(** Pressing button [b] of the dialog shown last, when it has one button. *)
Lemma step_press_last (p : platform) (w : screen) (a : alert) (btn : button) (b : nat) :
  buttons a = [btn] -> rendered w ->
  step p (display a w) (press_alert_button (List.length (alerts w)) b)
  = match b with
    | O => Some (match onPress btn with
                 | Some c => render (run_callback c w)
                 | None => w
                 end)
    | S _ => None
    end.
Proof.
  intros Hb R. unfold step. cbn [handle].
  replace (nth_error (alerts (display a w)) (List.length (alerts w))) with (Some a)
    by (symmetry; apply nth_error_last).
  rewrite Hb. destruct b as [| b]; cbn [nth_error].
  - rewrite close_last_alert. cbn [option_map].
    destruct (onPress btn); [reflexivity |]. rewrite render_idle; [reflexivity | exact R].
  - destruct b; reflexivity.
Qed.


(** In the web bundle no event opens a dialog or makes a payment, and the
    cart keeps its lines. *)
Lemma web_step (p : platform) (w w' : screen) (ev : event) :
  OS p = "web" -> alerts w = [] -> payments w = [] -> step p w ev = Some w' ->
  alerts w' = [] /\ payments w' = []
  /\ List.length (cartItems w') = List.length (cartItems w).
Proof.
  intros Hweb Ha Hp. unfold step.
  destruct ev as [i | i | | a b | k r | k e | k]; cbn [handle option_map].
  - intros [= <-]. cbn. unfold incrementQuantity. rewrite length_map. auto.
  - intros [= <-]. cbn. unfold decrementQuantity. rewrite length_map. auto.
  - intros [= <-]. unfold handlePayPalPayment.
    unfold Alert_alert. rewrite Hweb. cbn [String.eqb Ascii.eqb Bool.eqb].
    cbn. auto.
  - rewrite Ha. destruct a; discriminate.
  - rewrite Hp. destruct k; discriminate.
  - rewrite Hp. destruct k; discriminate.
  - rewrite Hp. destruct k; discriminate.
Qed.

(** Claim C2 does not hold of the code.  On web the variable [PayPal] is
    [null] and the payment capability is never contacted, but a press on
    the checkout button produces no outcome and clears nothing: all
    [handlePayPalPayment] does there is call [Alert.alert], which shows no
    dialog in the web bundle, so the closure with [setCartItems([])] never
    runs.  The press leaves the screen exactly as it was, and from a screen
    without dialogs and payments no sequence of events opens a dialog,
    makes a payment or changes the number of lines of the cart. *)
Theorem web_checkout_changes_nothing (p : platform) (w : screen) :
  OS p = "web" -> rendered w ->
  PayPal p = None
  /\ step p w press_checkout = Some w
  /\ forall evs w',
       alerts w = [] -> payments w = [] -> run p w evs = Some w' ->
       alerts w' = [] /\ payments w' = []
       /\ List.length (cartItems w') = List.length (cartItems w).
Proof.
  intros Hweb R. split; [| split].
  - unfold PayPal. rewrite Hweb. reflexivity.
  - apply step_checkout_web; assumption.
  - intros evs. clear R. revert w.
    induction evs as [| ev evs IH]; intros w w' Ha Hp; cbn [run].
    + intros [= <-]. auto.
    + destruct (step p w ev) as [w1 |] eqn:E; [| discriminate].
      destruct (web_step p w w1 ev Hweb Ha Hp E) as (Ha1 & Hp1 & L1).
      intros Hrun. destruct (IH w1 w' Ha1 Hp1 Hrun) as (Ha' & Hp' & L').
      repeat split; try assumption. congruence.
Qed.

Lemma web_checkout_changes_nothing_witness :
  step web mount press_checkout = Some mount
  /\ exists w',
       run web mount [press_checkout; press_increment (of_Z 1); press_checkout]
       = Some w'
       /\ alerts w' = [] /\ payments w' = []
       /\ List.length (cartItems w') = 3%nat.
Proof.
  destruct (web_checkout_changes_nothing web mount eq_refl eq_refl) as (_ & S & K).
  split; [exact S |]. eexists. split; [reflexivity |].
  apply (K [press_checkout; press_increment (of_Z 1); press_checkout] _
           eq_refl eq_refl eq_refl).
Defined.

(** Claim C3.  On a native platform where [PayPal] could not be loaded, a
    press on the checkout button only shows the dialog titled
    "PayPal Unavailable", with the message "PayPal payment is not available
    on this platform." and the single button OK, which has no handler:
    cart, summary, payments and log are unchanged, the button can be
    pressed, and pressing it gives back exactly the screen from before the
    press on the checkout button. *)
Theorem native_without_paypal_is_unavailable (p : platform) (w : screen) :
  OS p <> "web" -> required p = None -> rendered w ->
  exists w1,
    step p w press_checkout = Some w1
    /\ alerts w1
       = (alerts w
          ++ [ {| title := "PayPal Unavailable";
                  message := "PayPal payment is not available on this platform.";
                  buttons := [ {| text := "OK"; onPress := None |} ] |} ])%list
    /\ (cartItems w1, cartItems_ref w1, memo w1, payments w1, console w1)
       = (cartItems w, cartItems_ref w, memo w, payments w, console w)
    /\ (Screen.subtotal w1, Screen.totalItems w1, Screen.total w1)
       = (Screen.subtotal w, Screen.totalItems w, Screen.total w)
    /\ step p w1 (press_alert_button (List.length (alerts w)) 0) = Some w
    /\ forall b w2,
         step p w1 (press_alert_button (List.length (alerts w)) b) = Some w2 ->
         b = O /\ w2 = w.
Proof.
  intros Hos Hreq R. exists (display unavailable_alert w).
  split; [apply step_checkout_unavailable; assumption |].
  repeat (split; [reflexivity |]).
  split.
  - rewrite (step_press_last p w unavailable_alert _ O eq_refl R). reflexivity.
  - intros b w2. rewrite (step_press_last p w unavailable_alert _ b eq_refl R).
    destruct b as [| b]; [| discriminate].
    cbn [onPress]. intros [= <-]. split; reflexivity.
Qed.

Lemma native_without_paypal_is_unavailable_witness :
  exists w1,
    step android_without_paypal mount press_checkout = Some w1
    /\ alerts w1
       = [ {| title := "PayPal Unavailable";
              message := "PayPal payment is not available on this platform.";
              buttons := [ {| text := "OK"; onPress := None |} ] |} ]
    /\ cartItems w1 = initialCartItems
    /\ step android_without_paypal w1 (press_alert_button 0 0) = Some mount.
Proof.
  destruct (native_without_paypal_is_unavailable android_without_paypal mount)
    as (w1 & E1 & A1 & F1 & _ & S1 & _).
  - discriminate.
  - reflexivity.
  - reflexivity.
  - exists w1. split; [exact E1 |]. split; [exact A1 |].
    split; [injection F1 as C _ _ _ _; exact C | exact S1].
Defined.







Lemma in_flight_payWithPayPal (d : paymentData) (w : screen) :
  in_flight (payWithPayPal d w) = S (in_flight w).
Proof.
  unfold in_flight. cbn [payments payWithPayPal].
  rewrite filter_app, length_app. cbn. lia.
Qed.

Lemma Alert_alert_frame (p : platform) (a : alert) (w : screen) :
  (rendered w -> rendered (Alert_alert p a w))
  /\ cartItems (Alert_alert p a w) = cartItems w
  /\ payments (Alert_alert p a w) = payments w.
Proof.
  unfold Alert_alert. destruct (String.eqb (OS p) "web"); repeat split; auto.
Qed.

Lemma step_checkout_any (p : platform) (w : screen) :
  rendered w ->
  step p w press_checkout
  = Some (if negb (String.eqb (OS p) "web")
             && match required p with Some _ => true | None => false end
          then payWithPayPal (make_paymentData w) w
          else Alert_alert p (if String.eqb (OS p) "web" then demo_alert
                              else unavailable_alert) w).
Proof.
  intros R. unfold step. cbn [handle option_map]. unfold handlePayPalPayment, PayPal.
  destruct (String.eqb (OS p) "web") eqn:E; cbn [negb andb].
  - rewrite render_idle; [reflexivity |]. apply Alert_alert_frame, R.
  - destruct (required p); rewrite render_idle; try reflexivity;
      try exact R; apply Alert_alert_frame, R.
Qed.

(** Claim C9 as stated fails: two presses on the checkout button of a
    phone with PayPal loaded leave two payments in flight. *)
Lemma two_payments_in_flight :
  ~ (forall (p : platform) (evs : list event) (w' : screen),
       run p mount evs = Some w' -> (in_flight w' <= 1)%nat).
Proof.
  intros H.
  assert (E : exists w', run ios mount [press_checkout; press_checkout] = Some w'
                         /\ in_flight w' = 2%nat)
    by (eexists; split; reflexivity).
  destruct E as (w' & E & F). specialize (H ios _ w' E). lia.
Qed.

(** Claim C9, amended.  The checkout button is never disabled and
    [handlePayPalPayment] has no guard against a payment in flight: [n]
    presses in a row on a native platform with [PayPal] loaded make [n]
    calls of [payWithPayPal], one per press, and add [n] payments in
    flight; on web or without [PayPal] a press makes no call.  The cart is
    untouched either way. *)
Theorem checkout_is_not_guarded (p : platform) (n : nat) (w : screen) :
  rendered w ->
  exists w',
    run p w (repeat press_checkout n) = Some w'
    /\ cartItems w' = cartItems w
    /\ if negb (String.eqb (OS p) "web")
          && match required p with Some _ => true | None => false end
       then payments w' = (payments w ++ repeat (make_paymentData w, pending) n)%list
            /\ in_flight w' = (in_flight w + n)%nat
       else payments w' = payments w.
Proof.
  revert w. induction n as [| n IH]; intros w R.
  - exists w. split; [reflexivity |]. split; [reflexivity |].
    destruct (_ && _); [| reflexivity]. cbn [repeat]. rewrite app_nil_r, Nat.add_0_r. auto.
  - cbn [repeat run]. rewrite (step_checkout_any p w R).
    destruct (negb (String.eqb (OS p) "web")
              && match required p with Some _ => true | None => false end) eqn:G.
    + destruct (IH (payWithPayPal (make_paymentData w) w) R) as (w' & E & C & P & F).
      exists w'. split; [exact E |]. split; [exact C |].
      rewrite P, F, in_flight_payWithPayPal. cbn [payments payWithPayPal].
      rewrite <- app_assoc. split; [reflexivity | lia].
    + destruct (Alert_alert_frame p (if String.eqb (OS p) "web" then demo_alert
                                     else unavailable_alert) w) as (RA & CA & PA).
      destruct (IH _ (RA R)) as (w' & E & C & P).
      exists w'. split; [exact E |]. split; [congruence |]. congruence.
Qed.

Lemma checkout_is_not_guarded_witness :
  exists w',
    run ios mount [press_checkout; press_checkout; press_checkout] = Some w'
    /\ in_flight w' = 3%nat.
Proof.
  destruct (checkout_is_not_guarded ios 3 mount eq_refl) as (w' & E & _ & _ & F).
  exists w'. split; [exact E | exact F].
Defined.

End ScreenFacts.

(** ** Laws of the quantity handlers *)

Module BagLaws.
Import JS Bag Spec Screen View JSFacts BagFacts ScreenFacts.

Local Open Scope string_scope.
Local Open Scope Z_scope.

Lemma stock_with_quantity (it : item) (q : number) :
  stock (with_quantity it q) = stock it.
Proof. reflexivity. Qed.

Lemma stock_incrementQuantity (i : number) (items : list item) :
  map stock (incrementQuantity i items) = map stock items.
Proof.
  unfold incrementQuantity. rewrite map_map. apply map_ext.
  intros it. destruct (strict_eq (id it) i); reflexivity.
Qed.

Lemma stock_decrementQuantity (i : number) (items : list item) :
  map stock (decrementQuantity i items) = map stock items.
Proof.
  unfold decrementQuantity. rewrite map_map. apply map_ext.
  intros it. destruct (strict_eq (id it) i && gt (quantity it) (of_Z 1)); reflexivity.
Qed.

(** Lines are never added, dropped one by one, reordered or repriced: after
    any sequence of events the cart has the ids, names, details and prices
    it had, in the same order, or it is empty. *)
Theorem lines_are_kept (p : platform) (evs : list event) (w w' : screen) :
  run p w evs = Some w' ->
  map stock (cartItems w') = map stock (cartItems w) \/ cartItems w' = [].
Proof.
  revert w. induction evs as [| ev evs IH]; intros w; cbn [run].
  - intros [= <-]. left. reflexivity.
  - destruct (step p w ev) as [w1 |] eqn:E; [| discriminate].
    intros Hrun. specialize (IH w1 Hrun).
    apply step_cartItems in E as [E | [[i E] | [[i E] | E]]].
    + rewrite E in IH. exact IH.
    + rewrite E, stock_incrementQuantity in IH. exact IH.
    + rewrite E, stock_decrementQuantity in IH. exact IH.
    + right. destruct IH as [IH | IH]; [| exact IH].
      rewrite E in IH. destruct (cartItems w'); [reflexivity | discriminate].
Qed.

Lemma lines_are_kept_witness :
  exists w',
    run ios mount [press_increment (of_Z 1); press_decrement (of_Z 2);
                   press_checkout] = Some w'
    /\ (map stock (cartItems w') = map stock initialCartItems \/ cartItems w' = []).
Proof.
  eexists. split; [reflexivity |].
  apply (lines_are_kept ios [press_increment (of_Z 1); press_decrement (of_Z 2);
                             press_checkout] mount _ eq_refl).
Defined.

(** The two updaters on one line. *)
Lemma increment_increment (i j : number) (items : list item) :
  incrementQuantity i (incrementQuantity j items)
  = incrementQuantity j (incrementQuantity i items).
Proof.
  unfold incrementQuantity. rewrite !map_map. apply map_ext. intros it.
  destruct (strict_eq (id it) i) eqn:Ei, (strict_eq (id it) j) eqn:Ej;
    cbn [id quantity with_quantity]; rewrite ?Ei, ?Ej; reflexivity.
Qed.

Lemma decrement_decrement (i j : number) (items : list item) :
  decrementQuantity i (decrementQuantity j items)
  = decrementQuantity j (decrementQuantity i items).
Proof.
  unfold decrementQuantity. rewrite !map_map. apply map_ext. intros it.
  destruct (strict_eq (id it) i) eqn:Ei, (strict_eq (id it) j) eqn:Ej;
    cbn [andb];
    destruct (gt (quantity it) (of_Z 1)) eqn:G;
    cbn [id quantity with_quantity andb]; rewrite ?Ei, ?Ej, ?G; cbn [andb];
    reflexivity.
Qed.

(** Presses on the quantity buttons of different lines can be taken in any
    order: two increments or two decrements always commute, and an
    increment commutes with a decrement when no line has both ids. *)
Theorem quantity_presses_commute (i j : number) (items : list item) :
  (forall it, In it items -> strict_eq (id it) i = true -> strict_eq (id it) j = false) ->
  incrementQuantity i (incrementQuantity j items)
  = incrementQuantity j (incrementQuantity i items)
  /\ decrementQuantity i (decrementQuantity j items)
     = decrementQuantity j (decrementQuantity i items)
  /\ incrementQuantity i (decrementQuantity j items)
     = decrementQuantity j (incrementQuantity i items).
Proof.
  intros H. split; [apply increment_increment |].
  split; [apply decrement_decrement |].
  unfold decrementQuantity, incrementQuantity. rewrite !map_map.
  apply map_ext_in. intros it Hit. specialize (H it Hit).
  destruct (strict_eq (id it) i) eqn:Ei.
  - rewrite (H eq_refl). cbn [andb id quantity with_quantity].
    rewrite Ei, (H eq_refl). reflexivity.
  - destruct (strict_eq (id it) j && gt (quantity it) (of_Z 1)) eqn:G;
      cbn [id quantity with_quantity]; rewrite Ei; reflexivity.
Qed.

Lemma quantity_presses_commute_witness :
  incrementQuantity (of_Z 1) (decrementQuantity (of_Z 3) initialCartItems)
  = decrementQuantity (of_Z 3) (incrementQuantity (of_Z 1) initialCartItems).
Proof.
  apply (quantity_presses_commute (of_Z 1) (of_Z 3) initialCartItems).
  intros it [<- | [<- | [<- | []]]]; intros H; try reflexivity; discriminate H.
Defined.

(** A decrement followed by an increment of the same line leaves a
    quantity [n >= 2] as it was but takes a quantity of 1 to 2: for every
    integer quantity [n] from 1 to 2^53 the line ends at [max n 2], and
    nothing else of the line changes. *)
Theorem decrement_then_increment (i : number) (items : list item)
    (k : nat) (it : item) (n : Z) :
  nth_error items k = Some it -> strict_eq (id it) i = true ->
  counted MAX_EXACT (quantity it) = true -> to_Z (quantity it) = Some n ->
  exists it',
    nth_error (incrementQuantity i (decrementQuantity i items)) k = Some it'
    /\ stock it' = stock it
    /\ quantity it' = of_Z (Z.max n 2)
    /\ to_Z (quantity it') = Some (Z.max n 2).
Proof.
  intros Hk Hi Hc Ht.
  apply counted_spec in Hc as (n' & Hn & Ht' & Hq).
  assert (n' = n) by congruence. subst n'. unfold MAX_EXACT in Hn.
  rewrite incrementQuantity_nth, decrementQuantity_nth, Hk. cbn [option_map].
  rewrite Hi. cbn [andb]. rewrite Hq, gt_one by lia.
  destruct (Z.ltb_spec 1 n) as [L | L].
  - cbn [id quantity with_quantity]. rewrite Hi.
    eexists. split; [reflexivity |]. split; [reflexivity |].
    cbn [quantity with_quantity]. rewrite sub_exact, add_exact by lia.
    replace (n - 1 + 1) with (Z.max n 2) by lia.
    split; [reflexivity | apply to_Z_of_Z; lia].
  - rewrite Hi. eexists. split; [reflexivity |]. split; [reflexivity |].
    cbn [quantity with_quantity]. rewrite Hq.
    assert (n = 1) by lia. subst n. split; reflexivity.
Qed.

Lemma decrement_then_increment_witness :
  exists it',
    nth_error (incrementQuantity (of_Z 2) (decrementQuantity (of_Z 2) initialCartItems)) 1
    = Some it'
    /\ to_Z (quantity it') = Some 2.
Proof.
  destruct (decrement_then_increment (of_Z 2) initialCartItems 1 _ 1
              eq_refl eq_refl eq_refl eq_refl) as (it' & E & _ & _ & Q).
  exists it'. split; [exact E | exact Q].
Defined.

Lemma quantity_sum_cons (it : item) (items : list item) (n : Z) :
  to_Z (quantity it) = Some n -> quantity_sum (it :: items) = n + quantity_sum items.
Proof. intros H. unfold quantity_sum. cbn [fold_right]. rewrite H. reflexivity. Qed.

Lemma quantity_sum_nonneg (items : list item) :
  quantities_counted items -> 0 <= quantity_sum items.
Proof. intros H. pose proof (quantity_sum_counted items H). lia. Qed.

Lemma quantity_sum_incrementQuantity (i : number) (items : list item) :
  quantities_counted items ->
  quantity_sum items + Z.of_nat (matching i items) <= 2 ^ 53 ->
  quantity_sum (incrementQuantity i items)
  = quantity_sum items + Z.of_nat (matching i items).
Proof.
  unfold matching, incrementQuantity.
  induction 1 as [| it items Hit Hc IH]; intros Hs; [reflexivity |].
  pose proof (quantity_sum_nonneg items Hc) as Hnn.
  apply counted_spec in Hit as (n & Hn & Ht & Hq).
  rewrite (quantity_sum_cons it items n Ht) in *.
  cbn [map filter] in *. destruct (strict_eq (id it) i).
  - cbn [List.length] in *.
    rewrite (quantity_sum_cons _ _ (n + 1)).
    + rewrite IH by lia. lia.
    + cbn [quantity with_quantity]. rewrite Hq, add_exact by lia.
      apply to_Z_of_Z. lia.
  - rewrite (quantity_sum_cons _ _ n Ht). rewrite IH by lia. lia.
Qed.

Lemma quantity_sum_decrementQuantity (i : number) (items : list item) :
  quantities_counted items ->
  quantity_sum (decrementQuantity i items)
  = quantity_sum items - Z.of_nat (lowered i items).
Proof.
  unfold lowered, decrementQuantity.
  induction 1 as [| it items Hit Hc IH]; [reflexivity |].
  pose proof Hit as Hit'.
  apply counted_spec in Hit as (n & Hn & Ht & Hq). unfold MAX_EXACT in Hn.
  rewrite (quantity_sum_cons it items n Ht).
  cbn [map filter]. destruct (strict_eq (id it) i && gt (quantity it) (of_Z 1)) eqn:G.
  - cbn [List.length]. apply andb_prop in G as [_ G].
    rewrite Hq, gt_one in G by lia. apply Z.ltb_lt in G.
    rewrite (quantity_sum_cons _ _ (n - 1)).
    + rewrite IH. lia.
    + cbn [quantity with_quantity]. rewrite Hq, sub_exact by lia.
      apply to_Z_of_Z. lia.
  - rewrite (quantity_sum_cons _ _ n Ht). rewrite IH. lia.
Qed.

Lemma totalItems_to_Z (items : list item) :
  quantities_counted items -> quantity_sum items <= 2 ^ 53 ->
  to_Z (Bag.totalItems items) = Some (quantity_sum items).
Proof.
  intros Hc Hs. rewrite totalItems_exact by assumption.
  destruct items as [| it items]; [reflexivity |].
  apply to_Z_of_Z. pose proof (quantity_sum_counted _ Hc). cbn [List.length] in *. lia.
Qed.

(** The item count in the header follows the presses exactly: in a cart
    of integer quantities, an increment raises the count by the number of
    lines with that id (one, when ids are unique) as long as the new count
    does not exceed 2^53, and a decrement lowers it by the number of lines
    with that id whose quantity is above 1. *)
Theorem item_count_follows_presses (i : number) (items : list item) :
  quantities_counted items -> quantity_sum items <= 2 ^ 53 ->
  to_Z (Bag.totalItems items) = Some (quantity_sum items)
  /\ to_Z (Bag.totalItems (decrementQuantity i items))
     = Some (quantity_sum items - Z.of_nat (lowered i items))
  /\ (quantity_sum items + Z.of_nat (matching i items) <= 2 ^ 53 ->
      to_Z (Bag.totalItems (incrementQuantity i items))
      = Some (quantity_sum items + Z.of_nat (matching i items))).
Proof.
  intros Hc Hs. split; [apply totalItems_to_Z; assumption |]. split.
  - rewrite <- quantity_sum_decrementQuantity by exact Hc.
    apply totalItems_to_Z; [apply decrementQuantity_counted, Hc |].
    rewrite quantity_sum_decrementQuantity by exact Hc. lia.
  - intros Hi. rewrite <- quantity_sum_incrementQuantity by assumption.
    apply totalItems_to_Z; [apply incrementQuantity_counted, Hc |].
    rewrite quantity_sum_incrementQuantity by assumption. exact Hi.
Qed.

Lemma item_count_follows_presses_witness :
  to_Z (Bag.totalItems initialCartItems) = Some 6
  /\ to_Z (Bag.totalItems (decrementQuantity (of_Z 2) initialCartItems)) = Some 6
  /\ to_Z (Bag.totalItems (incrementQuantity (of_Z 2) initialCartItems)) = Some 7.
Proof.
  assert (Hc : quantities_counted initialCartItems) by (repeat constructor).
  assert (Hs : quantity_sum initialCartItems <= 2 ^ 53) by (vm_compute; discriminate).
  destruct (item_count_follows_presses (of_Z 2) initialCartItems Hc Hs) as (H1 & H2 & H3).
  split; [exact H1 |]. split; [exact H2 |].
  apply H3. vm_compute. discriminate.
Defined.

End BagLaws.

(** ** What the checkout never does *)

Module CheckoutSafety.
Import JS Bag Spec Screen View JSFacts BagFacts ScreenFacts.

Local Open Scope string_scope.
Local Open Scope Z_scope.

(** The request built over an empty cart. *)
Lemma empty_cart_request (w : screen) :
  rendered w -> cartItems w = [] ->
  make_paymentData w
  = {| amount := "15.00"; currency := "USD";
       description := "Extreme Fit - 0 items";
       clientId := "AX5LCRqe63mpn5Iuk5dD6Z6E32Qn6skf2MdRRGmtDDPQwvKMdx76rqjSbYgISFz8L5fuR_sFGHmFy7fh";
       environment := "sandbox" |}.
Proof.
  intros R E. unfold make_paymentData, Screen.total, Screen.subtotal, Screen.totalItems.
  rewrite R, E. cbn [fst snd summary].
  replace (toFixed (add (Bag.subtotal []) SHIPPING_COST) 2) with "15.00"
    by (vm_compute; reflexivity).
  replace (toString (Bag.totalItems [])) with "0" by (vm_compute; reflexivity).
  reflexivity.
Qed.

Lemma step_keeps_empty (p : platform) (w w' : screen) (ev : event) :
  cartItems w = [] -> step p w ev = Some w' -> cartItems w' = [].
Proof.
  intros E H. apply step_cartItems in H as [-> | [[i ->] | [[i ->] | ->]]];
    rewrite ?E; reflexivity.
Qed.

(** An emptied cart stays empty, whatever is pressed, and the checkout
    button still works on it: on a phone with PayPal loaded a press
    submits a payment of the shipping cost alone, "15.00" for
    "Extreme Fit - 0 items". *)
Theorem empty_cart_is_still_charged (p : platform) (evs : list event)
    (w w' : screen) :
  rendered w -> cartItems w = [] -> run p w evs = Some w' ->
  cartItems w' = []
  /\ (Screen.subtotal w', Screen.totalItems w', Screen.total w')
     = (of_Z 0, of_Z 0, SHIPPING_COST)
  /\ (OS p <> "web" -> required p = Some react_native_paypal ->
      exists w2,
        step p w' press_checkout = Some w2
        /\ payments w2
           = (payments w'
              ++ [({| amount := "15.00"; currency := "USD";
                      description := "Extreme Fit - 0 items";
                      clientId := "AX5LCRqe63mpn5Iuk5dD6Z6E32Qn6skf2MdRRGmtDDPQwvKMdx76rqjSbYgISFz8L5fuR_sFGHmFy7fh";
                      environment := "sandbox" |}, pending)])%list).
Proof.
  intros R E Hrun.
  pose proof (rendered_run p evs w w' R Hrun) as R'.
  assert (E' : cartItems w' = []).
  { revert w R E Hrun. induction evs as [| ev evs IH]; intros w R E; cbn [run].
    - intros [= <-]. exact E.
    - destruct (step p w ev) as [w1 |] eqn:S1; [| discriminate].
      apply IH; [eapply rendered_step; eauto | eapply step_keeps_empty; eauto]. }
  split; [exact E' |]. split.
  - unfold Screen.total, Screen.subtotal, Screen.totalItems. rewrite R', E'. reflexivity.
  - intros Hos Hreq. eexists.
    split; [apply step_checkout_live; assumption |].
    cbn [payments payWithPayPal]. rewrite (empty_cart_request w' R' E'). reflexivity.
Qed.

Lemma empty_cart_is_still_charged_witness :
  exists w' w2,
    run ios {| cartItems := []; cartItems_ref := 1; memo := (1%nat, summary []);
               alerts := []; payments := []; console := [] |}
        [press_increment (of_Z 1)] = Some w'
    /\ cartItems w' = []
    /\ step ios w' press_checkout = Some w2
    /\ payments w2
       = [({| amount := "15.00"; currency := "USD";
              description := "Extreme Fit - 0 items";
              clientId := "AX5LCRqe63mpn5Iuk5dD6Z6E32Qn6skf2MdRRGmtDDPQwvKMdx76rqjSbYgISFz8L5fuR_sFGHmFy7fh";
              environment := "sandbox" |}, pending)].
Proof.
  assert (Hios : OS ios <> "web") by discriminate.
  eexists.
  destruct (empty_cart_is_still_charged ios [press_increment (of_Z 1)]
              {| cartItems := []; cartItems_ref := 1; memo := (1%nat, summary []);
                 alerts := []; payments := []; console := [] |} _
              eq_refl eq_refl eq_refl) as (E & _ & K).
  destruct (K Hios eq_refl) as (w2 & S2 & P2).
  exists w2. split; [reflexivity |]. split; [exact E |]. split; [exact S2 | exact P2].
Defined.

(** Without the capability nothing is ever paid: on web, and on a phone
    where the PayPal package could not be required, no sequence of events
    calls [payWithPayPal], no promise can settle and nothing is logged. *)
Theorem no_capability_no_payment (p : platform) (evs : list event)
    (w w' : screen) :
  OS p = "web" \/ required p = None ->
  payments w = [] -> run p w evs = Some w' ->
  payments w' = [] /\ console w' = console w.
Proof.
  intros Hp. revert w. induction evs as [| ev evs IH]; intros w Hw; cbn [run].
  - intros [= <-]. split; [exact Hw | reflexivity].
  - destruct (step p w ev) as [w1 |] eqn:E; [| discriminate].
    intros Hrun.
    assert (H1 : payments w1 = [] /\ console w1 = console w).
    { revert E. unfold step.
      destruct ev as [i | i | | a b | k r | k e | k]; cbn [handle option_map].
      - intros [= <-]. split; [exact Hw | reflexivity].
      - intros [= <-]. split; [exact Hw | reflexivity].
      - intros [= <-]. unfold handlePayPalPayment, PayPal, Alert_alert.
        destruct (String.eqb (OS p) "web") eqn:Eos; cbn [negb].
        + split; [exact Hw | reflexivity].
        + destruct Hp as [Hp | Hp].
          * rewrite Hp in Eos. discriminate Eos.
          * rewrite Hp. split; [exact Hw | reflexivity].
      - destruct (nth_error (alerts w) a) as [dlg |]; [| discriminate].
        destruct (nth_error (buttons dlg) b) as [btn |]; [| discriminate].
        cbn [option_map]. intros [= <-].
        destruct (onPress btn) as [[] |]; split; try exact Hw; reflexivity.
      - rewrite Hw. destruct k; discriminate.
      - rewrite Hw. destruct k; discriminate.
      - rewrite Hw. destruct k; discriminate. }
    destruct H1 as [P1 C1]. destruct (IH w1 P1 Hrun) as [P' C'].
    split; [exact P' | congruence].
Qed.

Lemma no_capability_no_payment_witness :
  exists w',
    run android_without_paypal mount
        [press_checkout; press_increment (of_Z 1); press_alert_button 0 0;
         press_checkout] = Some w'
    /\ payments w' = [] /\ console w' = [].
Proof.
  eexists. split; [reflexivity |].
  apply (no_capability_no_payment android_without_paypal
           [press_checkout; press_increment (of_Z 1); press_alert_button 0 0;
            press_checkout] mount _ (or_intror eq_refl) eq_refl eq_refl).
Defined.

Lemma paid_console_log (l : log_entry) (w : screen) : paid w -> paid (console_log l w).
Proof.
  intros (r & H). exists r. cbn [console console_log]. apply in_or_app. left. exact H.
Qed.

Lemma Forall_remove_nth {A : Type} (P : A -> Prop) (n : nat) (l : list A) :
  Forall P l -> Forall P (remove_nth n l).
Proof.
  intros H. revert n. induction H as [| x l Hx Hl IH]; intros n.
  - destruct n; constructor.
  - destruct n; cbn [remove_nth]; [exact Hl | constructor; auto].
Qed.

Lemma settled_first_step (p : platform) (n : nat) (w w' : screen) (ev : event) :
  OS p <> "web" -> settled_first n w -> step p w ev = Some w' ->
  settled_first n w'.
Proof.
  intros Hos [HA HC]. unfold step.
  destruct ev as [i | i | | a b | k r | k e | k]; cbn [handle option_map].
  - intros [= <-]. split; [exact HA |].
    destruct HC as [HC | HC]; [left | right; exact HC].
    cbn. unfold incrementQuantity. rewrite length_map. exact HC.
  - intros [= <-]. split; [exact HA |].
    destruct HC as [HC | HC]; [left | right; exact HC].
    cbn. unfold decrementQuantity. rewrite length_map. exact HC.
  - intros [= <-]. unfold handlePayPalPayment, Alert_alert. rewrite (not_web p Hos).
    destruct (PayPal p); split; try exact HC; try exact HA.
    cbn [alerts render display]. apply Forall_app. split; [exact HA |].
    constructor; [discriminate | constructor].
  - destruct (nth_error (alerts w) a) as [dlg |] eqn:Ea; [| discriminate].
    destruct (nth_error (buttons dlg) b) as [btn |] eqn:Eb; [| discriminate].
    cbn [option_map]. intros [= <-].
    assert (HA' : Forall (fun a0 => clears a0 = true -> paid w) (remove_nth a (alerts w)))
      by (apply Forall_remove_nth, HA).
    destruct (onPress btn) as [[] |] eqn:Ep.
    + assert (Hp : paid w).
      { apply (proj1 (Forall_forall _ _) HA dlg (nth_error_In _ _ Ea)).
        unfold clears. apply existsb_exists. exists btn.
        split; [eapply nth_error_In; eauto | rewrite Ep; reflexivity]. }
      split; [exact HA' | right; exact Hp].
    + split; [exact HA' | exact HC].
  - destruct (nth_error (payments w) k) as [[d []] |]; try discriminate.
    cbn [option_map]. intros [= <-].
    unfold on_fulfilled, Alert_alert. rewrite (not_web p Hos).
    assert (Hp : paid (render (display (success_alert r)
                         (console_log (payment_successful r) (settle_payment k w))))).
    { exists r. cbn. apply in_or_app. right. left. reflexivity. }
    split; [| right; exact Hp].
    apply Forall_forall. intros a0 _ _. exact Hp.
  - destruct (nth_error (payments w) k) as [[d []] |]; try discriminate.
    cbn [option_map]. intros [= <-].
    unfold on_rejected, Alert_alert. rewrite (not_web p Hos). split.
    + cbn [alerts render display console_log settle_payment].
      apply Forall_app. split.
      * eapply Forall_impl; [| exact HA]. intros a0 H0 Hc.
        apply (paid_console_log (payment_error e) w), H0, Hc.
      * constructor; [discriminate | constructor].
    + destruct HC as [HC | HC]; [left; exact HC | right].
      apply (paid_console_log (payment_error e) w), HC.
  - destruct (nth_error (payments w) k) as [[d []] |]; try discriminate.
    cbn [option_map]. intros [= <-].
    unfold on_fulfilled_without_response, on_rejected, Alert_alert.
    rewrite (not_web p Hos). split.
    + cbn [alerts render display console_log settle_payment].
      apply Forall_app. split.
      * eapply Forall_impl; [| exact HA]. intros a0 H0 Hc.
        apply (paid_console_log (payment_error "TypeError")
                 (console_log payment_successful_without_response w)).
        apply (paid_console_log payment_successful_without_response w), H0, Hc.
      * constructor; [discriminate | constructor].
    + destruct HC as [HC | HC]; [left; exact HC | right].
      apply (paid_console_log (payment_error "TypeError")
               (console_log payment_successful_without_response w)).
      apply (paid_console_log payment_successful_without_response w), HC.
Qed.

Lemma settled_first_run (p : platform) (n : nat) (evs : list event)
    (w w' : screen) :
  OS p <> "web" -> settled_first n w -> run p w evs = Some w' ->
  settled_first n w'.
Proof.
  intros Hos. revert w. induction evs as [| ev evs IH]; intros w H0; cbn [run].
  - intros [= <-]. exact H0.
  - destruct (step p w ev) as [w1 |] eqn:E; [| discriminate].
    apply IH. eapply settled_first_step; eauto.
Qed.

(** On a native platform the cart is cleared only after a payment went
    through: starting from a screen without dialogs, whenever a run ends
    with another number of lines than it began with (in particular with an
    empty cart), a fulfilled payment has been logged. *)
Theorem cart_cleared_only_when_paid (p : platform) (evs : list event)
    (w w' : screen) :
  OS p <> "web" -> alerts w = [] -> run p w evs = Some w' ->
  List.length (cartItems w') = List.length (cartItems w)
  \/ exists response, In (payment_successful response) (console w').
Proof.
  intros Hos Ha Hrun.
  assert (H0 : settled_first (List.length (cartItems w)) w).
  { split; [rewrite Ha; constructor | left; reflexivity]. }
  destruct (settled_first_run p _ evs w w' Hos H0 Hrun) as [_ H']. exact H'.
Qed.

Lemma cart_cleared_only_when_paid_witness :
  exists w',
    run ios mount [press_checkout; payment_rejected 0 "declined";
                   press_alert_button 0 0; press_decrement (of_Z 1)] = Some w'
    /\ List.length (cartItems w') = 3%nat.
Proof.
  assert (Hios : OS ios <> "web") by discriminate.
  eexists. split; [reflexivity |].
  destruct (cart_cleared_only_when_paid ios
              [press_checkout; payment_rejected 0 "declined";
               press_alert_button 0 0; press_decrement (of_Z 1)]
              mount _ Hios eq_refl eq_refl) as [H | (r & [H | []])].
  - exact H.
  - discriminate H.
Defined.

Lemma only_ok_step (p : platform) (w w' : screen) (ev : event) :
  Forall only_ok (alerts w) -> step p w ev = Some w' -> Forall only_ok (alerts w').
Proof.
  intros HA. unfold step.
  destruct ev as [i | i | | a b | k r | k e | k]; cbn [handle option_map].
  - intros [= <-]. exact HA.
  - intros [= <-]. exact HA.
  - intros [= <-]. unfold handlePayPalPayment, Alert_alert.
    destruct (String.eqb (OS p) "web"); [| destruct (PayPal p)];
      cbn [alerts render display payWithPayPal]; try exact HA;
      apply Forall_app; (split; [exact HA |]);
      constructor; try constructor; eexists; reflexivity.
  - destruct (nth_error (alerts w) a) as [dlg |]; [| discriminate].
    destruct (nth_error (buttons dlg) b) as [btn |]; [| discriminate].
    cbn [option_map]. intros [= <-].
    destruct (onPress btn) as [[] |]; apply Forall_remove_nth, HA.
  - destruct (nth_error (payments w) k) as [[d []] |]; try discriminate.
    cbn [option_map]. intros [= <-]. unfold on_fulfilled, Alert_alert.
    destruct (String.eqb (OS p) "web");
      cbn [alerts render display console_log settle_payment]; [exact HA |].
    apply Forall_app. split; [exact HA |].
    constructor; [eexists; reflexivity | constructor].
  - destruct (nth_error (payments w) k) as [[d []] |]; try discriminate.
    cbn [option_map]. intros [= <-]. unfold on_rejected, Alert_alert.
    destruct (String.eqb (OS p) "web");
      cbn [alerts render display console_log settle_payment]; [exact HA |].
    apply Forall_app. split; [exact HA |].
    constructor; [eexists; reflexivity | constructor].
  - destruct (nth_error (payments w) k) as [[d []] |]; try discriminate.
    cbn [option_map]. intros [= <-].
    unfold on_fulfilled_without_response, on_rejected, Alert_alert.
    destruct (String.eqb (OS p) "web");
      cbn [alerts render display console_log settle_payment]; [exact HA |].
    apply Forall_app. split; [exact HA |].
    constructor; [eexists; reflexivity | constructor].
Qed.

(** Every dialog the screen puts up can only be acknowledged: it has the
    single button OK.  So on every screen of a run from one without
    dialogs, a press on any other button of a dialog cannot happen, and a
    press on OK always closes exactly that dialog. *)
Theorem dialogs_only_offer_ok (p : platform) (evs : list event) (w w' : screen) :
  Forall only_ok (alerts w) -> run p w evs = Some w' ->
  Forall only_ok (alerts w')
  /\ (forall a b, step p w' (press_alert_button a (S b)) = None)
  /\ (forall a, (a < List.length (alerts w'))%nat ->
        exists w2, step p w' (press_alert_button a 0) = Some w2
                   /\ alerts w2 = remove_nth a (alerts w')).
Proof.
  intros H0 Hrun.
  assert (H' : Forall only_ok (alerts w')).
  { revert w H0 Hrun. induction evs as [| ev evs IH]; intros w H0; cbn [run].
    - intros [= <-]. exact H0.
    - destruct (step p w ev) as [w1 |] eqn:E; [| discriminate].
      apply IH. eapply only_ok_step; eauto. }
  split; [exact H' |]. split.
  - intros a b. unfold step. cbn [handle].
    destruct (nth_error (alerts w') a) as [dlg |] eqn:Ea; [| reflexivity].
    destruct (proj1 (Forall_forall _ _) H' dlg (nth_error_In _ _ Ea)) as (c & Hc).
    rewrite Hc. destruct b; reflexivity.
  - intros a Ha. unfold step. cbn [handle].
    destruct (nth_error (alerts w') a) as [dlg |] eqn:Ea.
    + destruct (proj1 (Forall_forall _ _) H' dlg (nth_error_In _ _ Ea)) as (c & Hc).
      rewrite Hc. cbn [nth_error option_map onPress]. eexists. split; [reflexivity |].
      destruct c as [[] |]; reflexivity.
    + apply nth_error_None in Ea. lia.
Qed.

Lemma dialogs_only_offer_ok_witness :
  exists w',
    run ios mount [press_checkout; press_checkout; payment_rejected 1 "declined";
                   payment_fulfilled 0 {| response_id := "PAY-1" |}] = Some w'
    /\ List.length (alerts w') = 2%nat
    /\ step ios w' (press_alert_button 1 1) = None.
Proof.
  eexists. split; [reflexivity |]. split; [reflexivity |].
  destruct (dialogs_only_offer_ok ios
              [press_checkout; press_checkout; payment_rejected 1 "declined";
               payment_fulfilled 0 {| response_id := "PAY-1" |}]
              mount _ (Forall_nil _) eq_refl) as (_ & H & _).
  apply (H 1%nat O).
Defined.

End CheckoutSafety.

(** ** The amount sent *)

Module AmountFacts.
Import JS Bag Spec Screen JSFacts RoundFacts FixedFacts BagFacts ScreenFacts.

Local Open Scope string_scope.
Local Open Scope Z_scope.








End AmountFacts.

(** ** The account form *)

Module CreateAccountFacts.
Import CreateAccountPage.

Local Open Scope string_scope.

Lemma input_state (navigation : bool) (pg : page) (ev : input) :
  state (handle_input navigation pg ev) = edit ev (state pg).
Proof. destruct ev; reflexivity. Qed.

Lemma input_effects (navigation : bool) (pg : page) (ev : input) :
  effects (handle_input navigation pg ev) = (effects pg ++ asked navigation ev)%list.
Proof.
  destruct ev; cbn [handle_input effects asked handleCreateAccount pressBack];
    rewrite ?app_nil_r; reflexivity.
Qed.

(** Nothing typed into the form is ever checked.  After any sequence of
    edits and presses the fields hold what the edits alone put there, and
    what the page has asked for is, press by press, the same whatever the
    fields held: "Account created!" and the route "Main" for the create
    button, even on an empty form or with two different passwords. *)
Theorem create_account_never_validates (navigation : bool) (evs : list input)
    (pg : page) :
  state (handle_inputs navigation pg evs) = fold_left (fun f ev => edit ev f) evs (state pg)
  /\ effects (handle_inputs navigation pg evs)
     = (effects pg ++ flat_map (asked navigation) evs)%list
  /\ effects (handle_inputs navigation (handle_inputs navigation pg evs) [press_create])
     = (effects (handle_inputs navigation pg evs)
        ++ alert "Account created!"
           :: (if navigation then [navigate "Main"] else []))%list.
Proof.
  split; [| split].
  - revert pg. induction evs as [| ev evs IH]; intros pg; [reflexivity |].
    unfold handle_inputs in *. cbn [fold_left]. rewrite IH, input_state. reflexivity.
  - revert pg. induction evs as [| ev evs IH]; intros pg.
    + cbn. rewrite app_nil_r. reflexivity.
    + unfold handle_inputs in *. cbn [fold_left flat_map]. rewrite IH, input_effects.
      rewrite <- app_assoc. reflexivity.
  - reflexivity.
Qed.

End CreateAccountFacts.
